(** * RSS service: storage, rate limiting and rendering

    A shallow embedding of the TypeScript sources of [rss-service]
    ([storage.ts], [mock/redis.ts], [middleware/rate-limit.ts],
    [formatters.ts], [utils.ts], [routes.ts]) and the properties of
    the item ledger, the rate limiter and the renderer.

    JavaScript numbers are restricted to integers ([Z]) and NaN; the
    engine's built-ins (JSON, Date, coercions) and the third-party packages
    are interfaces, instantiated by small executable versions for the
    concrete scenarios. *)

From stdpp Require Import gmap strings list fin_maps pretty.
From Stdlib Require Import ZArith Lia Ascii.

Set Warnings "-register-all".
Open Scope Z_scope.

(** ** JavaScript values *)

Module JS.

(** What a variable of type [any] can hold in these sources.  A [VDate]
    carries its time value in milliseconds, [None] for an invalid date. *)
Inductive value : Type :=
  | VUndef
  | VNull
  | VBool (b : bool)
  | VNum (n : Z)
  | VStr (s : string)
  | VDate (t : option Z)
  | VArr (l : list value)
  | VObj (fields : list (string * value)).

(** A number that may be NaN. *)
Abbreviation num := (option Z).
Abbreviation NaN := (@None Z).

(** [!!v] *)
Definition truthy (v : value) : bool :=
  match v with
  | VUndef | VNull => false
  | VBool b => b
  | VNum n => negb (n =? 0)
  | VStr s => negb (String.eqb s "")
  | VDate _ | VArr _ | VObj _ => true
  end.

(** [a || b] *)
Definition or_else (a b : value) : value := if truthy a then a else b.

Fixpoint assoc (k : string) (fs : list (string * value)) : option value :=
  match fs with
  | [] => None
  | (k', v) :: fs' => if String.eqb k k' then Some v else assoc k fs'
  end.

(** [o.k] for a data key [k] (none of the keys read by the sources names a
    built-in property).  [None] is the TypeError of reading a property of
    [undefined] or [null]. *)
Definition getprop (o : value) (k : string) : option value :=
  match o with
  | VUndef | VNull => None
  | VObj fs => Some (default VUndef (assoc k fs))
  | _ => Some VUndef
  end.

(** [o?.k] *)
Definition getprop_opt (o : value) (k : string) : value :=
  default VUndef (getprop o k).

(** Writing [k: v] in an object literal after the properties [fs]: an
    existing key keeps its position and takes the new value, a new key goes
    last. *)
Fixpoint set_prop (k : string) (v : value) (fs : list (string * value))
  : list (string * value) :=
  match fs with
  | [] => [(k, v)]
  | (k', v') :: fs' =>
      if String.eqb k k' then (k, v) :: fs' else (k', v') :: set_prop k v fs'
  end.

Definition index_key (i : nat) : string := pretty i.

Fixpoint indexed_from {A} (i : nat) (l : list A) : list (string * A) :=
  match l with
  | [] => []
  | x :: l' => (index_key i, x) :: indexed_from (S i) l'
  end.

Fixpoint chars (s : string) : list value :=
  match s with
  | EmptyString => []
  | String c s' => VStr (String c EmptyString) :: chars s'
  end.

(** The own enumerable properties copied by [...v]. *)
Definition spread (v : value) : list (string * value) :=
  match v with
  | VObj fs => fs
  | VArr l => indexed_from 0 l
  | VStr s => indexed_from 0 (chars s)
  | _ => []
  end.

(** SameValueZero, as used by [Array.prototype.includes] and [indexOf] on
    primitive members; two distinct objects are never the same value. *)
Definition same_value (a b : value) : bool :=
  match a, b with
  | VUndef, VUndef | VNull, VNull => true
  | VBool x, VBool y => Bool.eqb x y
  | VNum x, VNum y => x =? y
  | VStr x, VStr y => String.eqb x y
  | _, _ => false
  end.

Definition includes (l : list value) (x : value) : bool :=
  existsb (same_value x) l.

(** [l.splice(l.indexOf(x), 1)] when [x] occurs in [l]. *)
Fixpoint remove_first (x : value) (l : list value) : list value :=
  match l with
  | [] => []
  | y :: l' => if same_value x y then l' else y :: remove_first x l'
  end.

(** ToIntegerOrInfinity on an integer or NaN. *)
Definition to_integer (n : num) : Z := default 0 n.

Definition rel_index (len i : Z) : Z :=
  if i <? 0 then Z.max (len + i) 0 else Z.min i len.

(** [l.slice(start, end)]; [end_ = None] is [undefined]. *)
Definition slice {A} (l : list A) (start : num) (end_ : option num) : list A :=
  let len := Z.of_nat (length l) in
  let k := rel_index len (to_integer start) in
  let final :=
    match end_ with
    | None => len
    | Some e => rel_index len (to_integer e)
    end in
  take (Z.to_nat (final - k)) (drop (Z.to_nat k) l).

Definition num_add (a b : num) : num :=
  match a, b with
  | Some x, Some y => Some (x + y)
  | _, _ => NaN
  end.

Definition num_sub (a b : num) : num :=
  match a, b with
  | Some x, Some y => Some (x - y)
  | _, _ => NaN
  end.

(** [a < b] and [a > b] on numbers: false when either side is NaN. *)
Definition num_lt (a b : num) : bool :=
  match a, b with
  | Some x, Some y => x <? y
  | _, _ => false
  end.

Definition num_gt (a b : num) : bool := num_lt b a.

Definition isNaN (a : num) : bool :=
  match a with
  | None => true
  | Some _ => false
  end.

Definition white_space (c : ascii) : bool :=
  let n := nat_of_ascii c in
  (n =? 32)%nat || (n =? 9)%nat || (n =? 10)%nat || (n =? 13)%nat
  || (n =? 11)%nat || (n =? 12)%nat.

Fixpoint trim_start (s : string) : string :=
  match s with
  | String c s' => if white_space c then trim_start s' else s
  | EmptyString => EmptyString
  end.

(** [s.trim()] *)
Definition trim (s : string) : string :=
  String.rev (trim_start (String.rev (trim_start s))).

(** [s.split(",")[0]] *)
Fixpoint first_segment (s : string) : string :=
  match s with
  | String c s' =>
      if Ascii.eqb c ","%char then EmptyString else String c (first_segment s')
  | EmptyString => EmptyString
  end.

(** The built-ins of the engine the sources call. *)
Class Runtime := {
  (** [JSON.parse(text)]; [None] is a SyntaxError. *)
  JSON_parse : string -> option value;
  (** [JSON.stringify(v)] of an object. *)
  JSON_stringify : value -> string;
  (** [JSON.stringify(v, null, 2)] of an object. *)
  JSON_stringify_pretty : value -> string;
  (** ToString. *)
  ToString : value -> string;
  (** StringToNumber. *)
  StringToNumber : string -> num;
  (** The time value of [new Date(v)]. *)
  Date_of : value -> num;
  (** [new Date(t).toISOString()]. *)
  toISOString : Z -> string;
  (** [new Date(t).getFullYear()]. *)
  getFullYear : Z -> Z;
  (** [parseInt(text, 10)]. *)
  parseInt : string -> num;
  (** [n.toString()]. *)
  Number_toString : Z -> string
}.

(** [`${v}`] and the other places where a value is read as a string. *)
Definition to_string `{Runtime} (v : value) : string :=
  match v with
  | VStr s => s
  | _ => ToString v
  end.

(** ToNumber. *)
Definition ToNumber `{Runtime} (v : value) : num :=
  match v with
  | VUndef => NaN
  | VNull => Some 0
  | VBool b => Some (if b then 1 else 0)
  | VNum n => Some n
  | VDate t => t
  | VStr _ | VArr _ | VObj _ => StringToNumber (ToString v)
  end.

(** [JSON.parse(v)] of a value that is not known to be a string. *)
Definition JSON_parse_value `{Runtime} (v : value) : option value :=
  JSON_parse (to_string v).

End JS.

Import JS.

(** ** Errors ([errors.ts]) *)

(** The service's error classes, the engine's own exceptions, and
    [ForeignError] for whatever a third-party package throws.  The message
    of a [StorageError] is kept without the interpolated cause. *)
Inductive error : Type :=
  | FeedNotFoundError (feedId : string)
  | DuplicateItemError (guid : value)
  | InvalidPayloadError (message : string)
  | FeedConfigurationError (message : string)
  | StorageError (message : string)
  | TypeError
  | SyntaxError
  | ForeignError.

Definition statusCode (e : error) : option Z :=
  match e with
  | FeedNotFoundError _ => Some 404
  | DuplicateItemError _ => Some 409
  | InvalidPayloadError _ => Some 400
  | FeedConfigurationError _ => Some 400
  | StorageError _ => Some 500
  | TypeError | SyntaxError | ForeignError => None
  end.

Inductive result (A : Type) : Type :=
  | Ok (a : A)
  | Throw (e : error).
Arguments Ok {A} a.
Arguments Throw {A} e.

(** ** The in-memory store ([mock/redis.ts]) *)

(** [inMemoryStorage: Record<string, any>]; an absent key reads as
    [undefined]. *)
Abbreviation storage := (gmap string value).

Module RedisMock.

Definition read (st : storage) (key : string) : value :=
  default VUndef (st !! key).

Definition is_undefined (v : value) : bool :=
  match v with
  | VUndef => true
  | _ => false
  end.

Definition get (st : storage) (key : string) : value :=
  let value := read st key in
  if is_undefined value then VNull else value.

Definition set (st : storage) (key : string) (value : string) : storage :=
  <[key := VStr value]> st.

Definition exists_ (st : storage) (key : string) : Z :=
  if negb (is_undefined (read st key)) then 1 else 0.

Definition del (st : storage) (key : string) : storage :=
  if is_undefined (read st key) then st else delete key st.

(** The array held at [key], if the entry is truthy and an array. *)
Definition array_at (st : storage) (key : string) : option (list value) :=
  match read st key with
  | VArr l => Some l
  | _ => None
  end.

Definition lrange (st : storage) (key : string) (start end_ : num)
  : list value :=
  match array_at st key with
  | None => []
  | Some l =>
      slice l start
        (if decide (end_ = Some (-1)) then None
         else Some (num_add end_ (Some 1)))
  end.

(** The first lines of [lpush] and [sadd]: a missing or falsy entry becomes
    [[]], a truthy entry that is not an array is wrapped in one. *)
Definition as_array (st : storage) (key : string) : list value :=
  let v := read st key in
  if negb (truthy v) then []
  else match v with
       | VArr l => l
       | _ => [v]
       end.

Definition lpush (st : storage) (key : string) (value : string) : storage :=
  <[key := VArr (VStr value :: as_array st key)]> st.

Definition ltrim (st : storage) (key : string) (start end_ : num) : storage :=
  match array_at st key with
  | None => st
  | Some l =>
      let endIndex :=
        if isNaN end_ || num_lt end_ (Some 0) then Some (-1) else end_ in
      <[key := VArr (slice l start
                       (if decide (endIndex = Some (-1)) then None
                        else Some (num_add endIndex (Some 1))))]> st
  end.

Definition sismember (st : storage) (key : string) (member : value) : Z :=
  match array_at st key with
  | None => 0
  | Some l => if includes l member then 1 else 0
  end.

Definition sadd (st : storage) (key : string) (member : value) : storage :=
  let l := as_array st key in
  if includes l member then <[key := VArr l]> st
  else <[key := VArr (l ++ [member])]> st.

Definition srem (st : storage) (key : string) (member : value) : storage :=
  match array_at st key with
  | None => st
  | Some l =>
      if includes l member then <[key := VArr (remove_first member l)]> st
      else st
  end.

Definition llen (st : storage) (key : string) : Z :=
  match array_at st key with
  | None => 0
  | Some l => Z.of_nat (length l)
  end.

End RedisMock.

(** ** The feed registry and the item ledger ([storage.ts])

    The functions run against [RedisMock], whose operations do not fail, so
    only the errors thrown by the functions themselves and by the engine
    appear. *)

Section Storage.
Context `{Runtime}.

Definition configKey (feedId : string) : string := "feed:" +:+ feedId.
Definition itemsKey (feedId : string) : string := "feed:" +:+ feedId +:+ ":items".
Definition guidsKey (feedId : string) : string := "feed:" +:+ feedId +:+ ":guids".

Definition feedExists (st : storage) (feedId : string) : bool :=
  RedisMock.exists_ st (configKey feedId) =? 1.

(** [createFeed(config)] at clock reading [now]; the result is [config.id]. *)
Definition createFeed (now : Z) (config : value) (st : storage)
  : result value * storage :=
  match getprop config "id" with
  | None => (Throw TypeError, st)
  | Some id =>
      if negb (truthy id) then
        (Throw (StorageError "Feed ID is required when creating a feed"), st)
      else
        let feedId := id in
        (Ok feedId,
         RedisMock.set st (configKey (to_string feedId))
           (JSON_stringify
              (VObj [("feedConfig", config);
                     ("createdAt", VStr (toISOString now))])))
  end.

Definition getFeedConfig (st : storage) (feedId : string) : result value :=
  let feedData := RedisMock.get st (configKey feedId) in
  if negb (truthy feedData) then Throw (FeedNotFoundError feedId)
  else
    match JSON_parse_value feedData with
    | None => Throw (StorageError "Failed to get feed configuration")
    | Some parsedData =>
        let feedConfig := getprop_opt parsedData "feedConfig" in
        if negb (truthy feedConfig) then
          Throw (StorageError "Invalid feed configuration format for feed")
        else Ok feedConfig
    end.

(** [config.maxItems] as a number. *)
Definition maxItems (config : value) : num :=
  ToNumber (getprop_opt config "maxItems").

Definition itemExists (st : storage) (feedId : string) (guid : value)
  : result bool :=
  if negb (feedExists st feedId) then Throw (FeedNotFoundError feedId)
  else Ok (RedisMock.sismember st (guidsKey feedId) guid =? 1).

(** The loop over [removedItems]: each entry is parsed and its guid, when
    set, removed from the index; an entry that fails is skipped. *)
Fixpoint cleanupGuids (key : string) (removedItems : list value)
    (st : storage) : storage :=
  match removedItems with
  | [] => st
  | removedItemJson :: rest =>
      let st' :=
        match JSON_parse_value removedItemJson with
        | None => st
        | Some removedItem =>
            match getprop removedItem "guid" with
            | None => st
            | Some guid =>
                if truthy guid then RedisMock.srem st key guid else st
            end
        end in
      cleanupGuids key rest st'
  end.

(** The body of [addItem]'s [try]. *)
Definition addItem_try (feedId : string) (item : value) (st : storage)
  : result unit * storage :=
  if negb (feedExists st feedId) then (Throw (FeedNotFoundError feedId), st)
  else
    match getprop item "guid" with
    | None => (Throw TypeError, st)
    | Some guid =>
        match (if truthy guid then itemExists st feedId guid else Ok false) with
        | Throw e => (Throw e, st)
        | Ok true => (Throw (DuplicateItemError guid), st)
        | Ok false =>
            match getFeedConfig st feedId with
            | Throw e => (Throw e, st)
            | Ok config =>
                let st1 :=
                  RedisMock.lpush st (itemsKey feedId) (JSON_stringify item) in
                let st2 :=
                  if truthy guid then RedisMock.sadd st1 (guidsKey feedId) guid
                  else st1 in
                let st3 :=
                  RedisMock.ltrim st2 (itemsKey feedId) (Some 0)
                    (num_sub (maxItems config) (Some 1)) in
                let currentItemCount := RedisMock.llen st3 (itemsKey feedId) in
                if num_gt (Some currentItemCount) (maxItems config) then
                  let removedItems :=
                    RedisMock.lrange st3 (itemsKey feedId) (maxItems config)
                      (Some (-1)) in
                  (Ok tt, cleanupGuids (guidsKey feedId) removedItems st3)
                else (Ok tt, st3)
            end
        end
    end.

(** [addItem]: the two service errors pass through the [catch], anything
    else becomes a [StorageError]. *)
Definition addItem (feedId : string) (item : value) (st : storage)
  : result unit * storage :=
  match addItem_try feedId item st with
  | (Throw (FeedNotFoundError f), st') => (Throw (FeedNotFoundError f), st')
  | (Throw (DuplicateItemError g), st') => (Throw (DuplicateItemError g), st')
  | (Throw _, st') => (Throw (StorageError "Failed to add item"), st')
  | (Ok u, st') => (Ok u, st')
  end.

Definition clearItems (feedId : string) (st : storage)
  : result unit * storage :=
  if negb (feedExists st feedId) then (Throw (FeedNotFoundError feedId), st)
  else
    (Ok tt,
     RedisMock.del (RedisMock.del st (itemsKey feedId)) (guidsKey feedId)).

(** The store after the push, the index update and the trim. *)
Definition afterTrim (feedId : string) (item guid : value) (m : num)
    (st : storage) : storage :=
  let st1 := RedisMock.lpush st (itemsKey feedId) (JSON_stringify item) in
  let st2 := if truthy guid then RedisMock.sadd st1 (guidsKey feedId) guid else st1 in
  RedisMock.ltrim st2 (itemsKey feedId) (Some 0) (num_sub m (Some 1)).

(** The stored item list of a feed and membership in its GUID index. *)
Definition ledger (st : storage) (feedId : string) : list value :=
  default [] (RedisMock.array_at st (itemsKey feedId)).

Definition inGuidIndex (st : storage) (feedId : string) (guid : value) : bool :=
  RedisMock.sismember st (guidsKey feedId) guid =? 1.

(** Successive [addItem] calls on one feed; each call is recorded with its
    outcome and the store it leaves. *)
Fixpoint addItems (feedId : string) (items : list value) (st : storage)
  : list (result unit * storage) :=
  match items with
  | [] => []
  | item :: rest =>
      let r := addItem feedId item st in
      r :: addItems feedId rest (snd r)
  end.

End Storage.

(** ** The store's counters and expiry ([mock/redis.ts]) *)

(** The store together with the callbacks scheduled by [setTimeout]: each
    is the time at which it is due and the key it will delete. *)
Record mock : Type := Mock {
  data : storage;
  timers : list (Z * string)
}.

Module RedisMockTimed.
Import RedisMock.

Section WithRuntime.
Context `{Runtime}.

Definition expiryKey (key : string) : string := key +:+ ":expiry".

Definition incr (st : storage) (key : string) : Z * storage :=
  let value := read st key in
  if is_undefined value then (1, <[key := VStr "1"]> st)
  else
    match value with
    | VStr s =>
        match parseInt s with
        | Some n => (n + 1, <[key := VStr (Number_toString (n + 1))]> st)
        | None => (1, <[key := VStr "1"]> st)
        end
    | _ => (1, <[key := VStr "1"]> st)
    end.

Definition expire (now : Z) (m : mock) (key : string) (seconds : Z)
  : Z * mock :=
  if is_undefined (read (data m) key) then (0, m)
  else
    let expiryTime := now + seconds * 1000 in
    (1, {| data := <[expiryKey key := VStr (Number_toString expiryTime)]> (data m);
           timers := timers m ++ [(now + seconds * 1000, key)] |}).

(** [Math.ceil(x / 1000)] *)
Definition ceil_div_1000 (x : Z) : Z := - ((- x) / 1000).

Definition ttl (now : Z) (st : storage) (key : string) : Z :=
  let expiryTime := read st (expiryKey key) in
  if is_undefined expiryTime then -2
  else
    match parseInt (to_string expiryTime) with
    | Some t =>
        let ttl := ceil_div_1000 (t - now) in
        if 0 <? ttl then ttl else -1
    | None => -1
    end.

(** The callback scheduled by [expire]. *)
Definition autoExpire (st : storage) (key : string) : storage :=
  if is_undefined (read st key) then st
  else delete (expiryKey key) (delete key st).

(** The callbacks that are due at [now] run, in the order in which they
    were scheduled. *)
Definition runTimers (now : Z) (m : mock) : mock :=
  {| data :=
       fold_left (fun st t => if fst t <=? now then autoExpire st (snd t) else st)
         (timers m) (data m);
     timers := filter (fun t => now < fst t) (timers m) |}.

End WithRuntime.
End RedisMockTimed.

(** ** The rate limiter ([middleware/rate-limit.ts])

    A request is handled at one reading of the clock.  The sweep that runs
    every minute is left out: it deletes cache entries whose expiry has
    passed, which [rateLimiter] already treats as absent, and evicts live
    entries only when the cache holds more than 10000 clients. *)

(** What [pipeline.exec()] gives: an exception, or the value returned,
    [None] for [null] and otherwise the array of results, which are numbers
    as the casts [results[0] as number] and [results[1] as number] have
    them. *)
Inductive execResult : Type :=
  | ExecThrows
  | ExecReturns (results : option (list Z)).

(** The two remote calls of the limiter, at clock reading [now]: the
    pipeline of [incr] and [ttl] on a key, and [expire] ([None] when it
    throws). *)
Class RemoteStore (S : Type) := {
  pipelineIncrTtl : Z → string → S → execResult * S;
  remoteExpire : Z → string → Z → S → option Z * S
}.

(** The in-memory store as the remote store: its pipeline runs both
    commands and never throws. *)
Definition mockRemote `{Runtime} : RemoteStore mock :=
  {| pipelineIncrTtl now key m :=
       let m1 := RedisMockTimed.runTimers now m in
       let '(requests, st) := RedisMockTimed.incr (data m1) key in
       let ttl := RedisMockTimed.ttl now st key in
       (ExecReturns (Some [requests; ttl]), {| data := st; timers := timers m1 |});
     remoteExpire now key seconds m :=
       let '(r, m') := RedisMockTimed.expire now m key seconds in
       (Some r, m') |}.

Module RateLimit.

Definition windowMs : Z := 5 * 60 * 1000.
Definition max : Z := 100.

Record entry : Type := Entry { count : Z; expires : Z }.

Abbreviation memCache := (gmap string entry).

Record request : Type := Request {
  method : string;
  cf_connecting_ip : option string;
  x_forwarded_for : option string;
  x_real_ip : option string
}.

(** A header that is present and not empty. *)
Definition present (h : option string) : option string :=
  match h with
  | Some s => if String.eqb s "" then None else Some s
  | None => None
  end.

Definition clientIp (req : request) : string :=
  match present (cf_connecting_ip req) with
  | Some ip => ip
  | None =>
      match present (trim <$> (first_segment <$> x_forwarded_for req)) with
      | Some ip => ip
      | None => default "unknown" (present (x_real_ip req))
      end
  end.

Definition rateKey (req : request) : string := "ratelimit:" +:+ clientIp req.

(** How the middleware ends: it calls [next()], which is taken to return
    normally, or throws the HTTPException with status 429. *)
Inductive outcome : Type :=
  | Next
  | TooManyRequests.

Record headers : Type := Headers {
  limit : Z;
  remaining : Z;
  reset : Z
}.

Record response (S : Type) : Type := Response {
  result_of : outcome;
  headers_of : option headers;
  cache_of : memCache;
  remote_of : S
}.
Arguments Response {S}.
Arguments result_of {S}.
Arguments headers_of {S}.
Arguments cache_of {S}.
Arguments remote_of {S}.

Section Limiter.
Context {S : Type} `{RemoteStore S}.

(** The end of the [try] block, once [requests] and [ttl] are known. *)
Definition decide_request (now requests ttl : Z) (cache : memCache)
    (remote : S) : response S :=
  {| result_of := if max <? requests then TooManyRequests else Next;
     headers_of :=
       Some {| limit := max;
               remaining := Z.max 0 (max - requests);
               reset := now + ttl * 1000 |};
     cache_of := cache;
     remote_of := remote |}.

(** A path on which the middleware only calls [next()]. *)
Definition pass (cache : memCache) (remote : S) : response S :=
  {| result_of := Next; headers_of := None;
     cache_of := cache; remote_of := remote |}.

(** The [else] branch: no live entry in the cache, the counter is
    incremented in the remote store. *)
Definition viaRemote (key : string) (now : Z) (cache : memCache) (remote : S)
  : response S :=
  match pipelineIncrTtl now key remote with
  | (ExecThrows, remote') => pass cache remote'
  | (ExecReturns None, remote') => pass cache remote'
  | (ExecReturns (Some results), remote') =>
      match results with
      | requests :: ttl :: _ =>
          if (requests =? 1) || (ttl <? 0) then
            match remoteExpire now key (windowMs / 1000) remote' with
            | (None, remote'') => pass cache remote''
            | (Some _, remote'') =>
                let ttl := windowMs / 1000 in
                decide_request now requests ttl
                  (<[key := {| count := requests;
                               expires := now + ttl * 1000 |}]> cache)
                  remote''
            end
          else
            decide_request now requests ttl
              (<[key := {| count := requests;
                           expires := now + ttl * 1000 |}]> cache)
              remote'
      | _ => pass cache remote'
      end
  end.

(** [rateLimiter(c, next)] for a request handled at clock reading [now]. *)
Definition rateLimiter (req : request) (now : Z) (cache : memCache)
    (remote : S) : response S :=
  if negb (String.eqb (method req) "GET") then pass cache remote
  else
    let key := rateKey req in
    match cache !! key with
    | Some cached =>
        if now <? expires cached then
          let requests := count cached + 1 in
          let ttl := (expires cached - now) / 1000 in
          decide_request now requests ttl
            (<[key := {| count := requests; expires := expires cached |}]> cache)
            remote
        else viaRemote key now cache remote
    | None => viaRemote key now cache remote
    end.

(** Requests handled one after the other; the outcomes are listed in the
    order of the requests. *)
Fixpoint serve (reqs : list (request * Z)) (cache : memCache) (remote : S)
  : list outcome * memCache * S :=
  match reqs with
  | [] => ([], cache, remote)
  | (req, now) :: rest =>
      let r := rateLimiter req now cache remote in
      let '(outs, cache', remote') := serve rest (cache_of r) (remote_of r) in
      (result_of r :: outs, cache', remote')
  end.

End Limiter.

(** The pipeline did not deliver two results: it threw, or returned
    [null] or fewer than two entries. *)
Definition execFailed (r : execResult) : Prop :=
  match r with
  | ExecThrows => True
  | ExecReturns None => True
  | ExecReturns (Some results) => (length results < 2)%nat
  end.

(** The outcomes of [n] requests served from a cache entry whose count
    was [c]. *)
Fixpoint cachedOutcomes (c : Z) (n : nat) : list outcome :=
  match n with
  | O => []
  | S n' =>
      (if max <? c + 1 then TooManyRequests else Next) :: cachedOutcomes (c + 1) n'
  end.

(** The count held by the local cache for a client, and the counter held
    by the store. *)
Definition mirrorCount (cache : memCache) (key : string) : option Z :=
  count <$> cache !! key.

Definition remoteCount `{Runtime} (m : mock) (key : string) : num :=
  parseInt (to_string (RedisMock.read (data m) key)).

Definition lagAtMostOne `{Runtime} (cache : memCache) (m : mock) (key : string)
  : Prop :=
  match mirrorCount cache key, remoteCount m key with
  | Some c, Some r => Z.abs (c - r) ≤ 1
  | _, _ => False
  end.

End RateLimit.

(** ** Third-party packages *)

(** The options object passed to [sanitizeHtml]. *)
Record sanitizeOptions : Type := SanitizeOptions {
  allowedTags : list string;
  allowedAttributes : list (string * list string);
  selfClosing : list string;
  allowedSchemes : list string;
  allowedSchemesByTag : list (string * list string);
  allowedSchemesAppliedToAttributes : list string;
  allowProtocolRelative : bool
}.

(** The calls into [node-html-parser], [sanitize-html] and [feed]; [None]
    is an exception thrown by the package. *)
Class Packages := {
  (** [parse(html).textContent] *)
  textContent : value → option string;
  (** [sanitizeHtml(content, options)] *)
  sanitizeHtml : value → sanitizeOptions → option string;
  (** [feed.rss2()], [feed.atom1()] and [feed.json1()] of a [Feed] built
      from the given options, with the given items added in order. *)
  rss2 : value → list value → option string;
  atom1 : value → list value → option string;
  json1 : value → list value → option string
}.

(** ** Stripping and sanitizing ([utils.ts]) *)

Section Utils.
Context `{Packages}.

Definition stripHtml (html : value) : option string :=
  if negb (truthy html) then Some EmptyString
  else
    match textContent html with
    | Some text => Some (if String.eqb text "" then EmptyString else text)
    | None => None
    end.

Definition sanitizeConfig : sanitizeOptions :=
  {| allowedTags :=
       ["h1"; "h2"; "h3"; "h4"; "h5"; "h6"; "blockquote"; "p"; "a"; "ul";
        "ol"; "nl"; "li"; "b"; "i"; "strong"; "em"; "strike"; "code"; "hr";
        "br"; "div"; "table"; "thead"; "caption"; "tbody"; "tr"; "th"; "td";
        "pre"; "img"];
     allowedAttributes :=
       [("a", ["href"; "name"; "target"]);
        ("img", ["src"; "alt"; "title"; "width"; "height"]);
        ("*", ["class"; "id"])];
     selfClosing := ["img"; "br"; "hr"];
     allowedSchemes := ["http"; "https"; "mailto"];
     allowedSchemesByTag := [];
     allowedSchemesAppliedToAttributes := ["href"; "src"];
     allowProtocolRelative := true |}.

Definition sanitize (content : value) : option string :=
  sanitizeHtml content sanitizeConfig.

End Utils.

(** ** Rendering ([formatters.ts]) *)

Inductive FeedFormat : Type := rss | atom | json | raw.
Inductive ApiFormat : Type := api_raw | api_html.

Section Formatters.
Context `{Runtime} `{Packages}.

(** [v ? new Date(v) : new Date()] at clock reading [now]. *)
Definition dateOrNow (now : Z) (v : value) : value :=
  if truthy v then VDate (Date_of v) else VDate (Some now).

(** [v ? new Date(v) : undefined] *)
Definition dateOrUndefined (v : value) : value :=
  if truthy v then VDate (Date_of v) else VUndef.

(** The item returned from the [catch] of [formatItems]. *)
Definition errorItem (now : Z) : value :=
  VObj [("title", VStr "Error parsing item");
        ("description", VStr "Could not parse this item");
        ("date", VDate (Some now));
        ("link", VStr "")].

(** The [try] of the raw mode; [None] when it throws. *)
Definition rawItem (now : Z) (itemJson : string) : option value :=
  parsedItem ← JSON_parse itemJson;
  date ← getprop parsedItem "date";
  published ← getprop parsedItem "published";
  title ← getprop parsedItem "title" ≫= (fun t => stripHtml (or_else t (VStr "")));
  description ←
    getprop parsedItem "description" ≫= (fun t => stripHtml (or_else t (VStr "")));
  content ←
    getprop parsedItem "content" ≫= (fun t => stripHtml (or_else t (VStr "")));
  Some (VObj
          (set_prop "content" (VStr content)
             (set_prop "description" (VStr description)
                (set_prop "title" (VStr title)
                   (set_prop "published" (dateOrUndefined published)
                      (set_prop "date" (dateOrNow now date)
                         (spread parsedItem))))))).

(** The [try] of the html mode. *)
Definition htmlItem (now : Z) (itemJson : string) : option value :=
  parsedItem ← JSON_parse itemJson;
  date ← getprop parsedItem "date";
  published ← getprop parsedItem "published";
  Some (VObj
          (set_prop "published" (dateOrUndefined published)
             (set_prop "date" (dateOrNow now date) (spread parsedItem)))).

Definition formatItems (now : Z) (items : list string) (format : ApiFormat)
  : list value :=
  match format with
  | api_raw => (fun itemJson => default (errorItem now) (rawItem now itemJson)) <$> items
  | api_html => (fun itemJson => default (errorItem now) (htmlItem now itemJson)) <$> items
  end.

(** The item added from the [catch] of [generateFeed]. *)
Definition errorFeedItem (now : Z) : value :=
  VObj [("title", VStr "Error parsing item");
        ("description", VStr "Could not parse this feed item");
        ("date", VDate (Some now));
        ("link", VStr "")].

(** The options given to [new Feed(...)]. *)
Definition feedOptions (now : Z) (feedConfig : value) : option value :=
  id ← getprop feedConfig "id";
  title ← getprop feedConfig "title";
  description ← getprop feedConfig "description";
  siteUrl ← getprop feedConfig "siteUrl";
  language ← getprop feedConfig "language";
  favicon ← getprop feedConfig "favicon";
  copyright ← getprop feedConfig "copyright";
  image ← getprop feedConfig "image";
  author ← getprop feedConfig "author";
  Some (VObj
          [("id", id); ("title", title); ("description", description);
           ("link", siteUrl);
           ("language", or_else language (VStr "en"));
           ("favicon", favicon);
           ("copyright",
            or_else copyright
              (VStr ("© " +:+ Number_toString (getFullYear now))));
           ("updated", VDate (Some now));
           ("generator", VStr "curate.fun RSS Service");
           ("image", image); ("author", author);
           ("feedLinks",
            VObj [("rss", VStr (to_string siteUrl +:+ "/rss.xml"));
                  ("atom", VStr (to_string siteUrl +:+ "/atom.xml"));
                  ("json", VStr (to_string siteUrl +:+ "/feed.json"))])]).

Record rendered : Type := Rendered {
  content : string;
  contentType : string
}.

(** [generateFeed(items, feedConfig, format)] at clock reading [now]. *)
Definition generateFeed (now : Z) (items : list string) (feedConfig : value)
    (format : FeedFormat) : result rendered :=
  match format with
  | raw =>
      let rawItems := formatItems now items api_raw in
      match getprop feedConfig "siteUrl" with
      | None => Throw TypeError
      | Some siteUrl =>
          let jsonFeed :=
            VObj [("version", VStr "https://jsonfeed.org/version/1.1");
                  ("feed_url", VStr (to_string siteUrl +:+ "/raw.json"));
                  ("items", VArr rawItems)] in
          Ok {| content := JSON_stringify_pretty jsonFeed;
                contentType := "application/json; charset=utf-8" |}
      end
  | _ =>
      match feedOptions now feedConfig with
      | None => Throw TypeError
      | Some options =>
          let added :=
            (fun itemJson => default (errorFeedItem now) (htmlItem now itemJson))
              <$> items in
          let '(text, type) :=
            match format with
            | atom => (atom1 options added, "application/atom+xml; charset=utf-8")
            | json => (json1 options added, "application/json; charset=utf-8")
            | _ => (rss2 options added, "application/rss+xml; charset=utf-8")
            end in
          match text with
          | Some text => Ok {| content := text; contentType := type |}
          | None => Throw ForeignError
          end
      end
  end.

(** A stored string whose raw rendering reads the clock: it does not parse,
    or rendering it throws, or it carries no date. *)
Definition usesClock (itemJson : string) : bool :=
  match JSON_parse itemJson with
  | Some parsedItem =>
      match rawItem 0 itemJson with
      | Some _ => negb (truthy (getprop_opt parsedItem "date"))
      | None => true
      end
  | None => true
  end.

End Formatters.

(** The character after a [<] that opens a tag, a closing tag, a comment
    or a declaration. *)
Definition opensTag (c : ascii) : bool :=
  let n := nat_of_ascii c in
  ((65 <=? n)%nat && (n <=? 90)%nat) || ((97 <=? n)%nat && (n <=? 122)%nat)
  || Ascii.eqb c "/"%char || Ascii.eqb c "!"%char.

(** A [<] followed at once by such a character, with a [>] somewhere
    after it. *)
Fixpoint hasTag (s : string) : bool :=
  match s with
  | EmptyString => false
  | String c s' =>
      if Ascii.eqb c "<"%char then
        match s' with
        | String c' _ =>
            if opensTag c' then
              match String.index 0 ">" s' with
              | Some _ => true
              | None => hasTag s'
              end
            else hasTag s'
        | EmptyString => false
        end
      else hasTag s'
  end.


(** ** The add-item endpoint ([routes.ts]) *)

Record httpResponse : Type := HttpResponse {
  status : Z;
  body : value
}.

(** What the handler reads besides the request and the store: the clock
    and the identifier [uuidv4()] would return. *)
Record ambient : Type := Ambient {
  clock : Z;
  uuid : string
}.

Section Routes.
Context `{Runtime} `{Packages}.

(** [c.json(body, status)] *)
Definition respond (body : list (string * value)) (status : Z) : httpResponse :=
  {| status := status; body := VObj body |}.

(** [...(cond && { key: v })] after the properties [fs]. *)
Definition spreadIf (cond : value) (key : string) (v : value)
    (fs : list (string * value)) : list (string * value) :=
  if truthy cond then set_prop key v fs else fs.

Definition categoryOf (categories : value) : value :=
  if truthy categories then
    match categories with
    | VArr l =>
        match l with
        | VStr _ :: _ => VArr ((fun cat => VObj [("name", cat)]) <$> l)
        | _ => categories
        end
    | VStr _ => VArr [VObj [("name", categories)]]
    | _ => VUndef
    end
  else VUndef.

Definition authorOf (author : value) : value :=
  if truthy author then
    match author with
    | VArr _ => author
    | _ => VArr [author]
    end
  else VUndef.

(** The object [completeItem]; [None] when building it throws. *)
Definition completeItemOf (env : ambient) (inputItem : value) : option value :=
  id ← getprop inputItem "id";
  guid ← getprop inputItem "guid";
  link ← getprop inputItem "link";
  title ← getprop inputItem "title";
  description ← getprop inputItem "description";
  content ← getprop inputItem "content";
  title' ← sanitize (or_else title (VStr "Untitled"));
  description' ← sanitize (or_else description (VStr ""));
  content' ← sanitize (or_else content (or_else description (VStr "")));
  published ← getprop inputItem "published";
  date ← getprop inputItem "date";
  categories ← getprop inputItem "categories";
  author ← getprop inputItem "author";
  image ← getprop inputItem "image";
  audio ← getprop inputItem "audio";
  video ← getprop inputItem "video";
  enclosure ← getprop inputItem "enclosure";
  source ← getprop inputItem "source";
  isPermaLink ← getprop inputItem "isPermaLink";
  copyright ← getprop inputItem "copyright";
  Some (VObj
    (spreadIf copyright "copyright" copyright
    (spreadIf (VBool (negb (RedisMock.is_undefined isPermaLink)))
       "isPermaLink" isPermaLink
    (spreadIf source "source" source
    (spreadIf enclosure "enclosure" enclosure
    (spreadIf video "video" video
    (spreadIf audio "audio" audio
    (spreadIf image "image" image
    (spreadIf (categoryOf categories) "category" (categoryOf categories)
    (spreadIf (authorOf author) "author" (authorOf author)
       [("id", or_else id (VStr (uuid env)));
        ("guid", or_else guid (or_else link (VStr (uuid env))));
        ("title", VStr title');
        ("description", VStr description');
        ("content", VStr content');
        ("link", link);
        ("published", dateOrNow (clock env) published);
        ("date", dateOrNow (clock env) date)])))))))))).

(** [inputItem.published = inputItem.publishedAt] when [publishedAt] is set
    and [published] is not. *)
Definition mapPublishedAt (inputItem : value) : option value :=
  publishedAt ← getprop inputItem "publishedAt";
  published ← getprop inputItem "published";
  Some (if truthy publishedAt && negb (truthy published) then
          match inputItem with
          | VObj fs => VObj (set_prop "published" publishedAt fs)
          | _ => inputItem
          end
        else inputItem).

Definition serverError : httpResponse :=
  respond [("error", VStr "Storage Error");
           ("message", VStr "Failed to store the item. Please try again later.")]
    500.

Definition notFound (feedId : string) : httpResponse :=
  respond [("error", VStr "Feed Not Found");
           ("message",
            VStr ("Feed with ID '" +:+ feedId +:+ "' does not exist"))] 404.

(** [handleAddItem] for the route parameter [feedId] and the request body
    [text]. *)
Definition handleAddItem (env : ambient) (feedId : string) (text : string)
    (st : storage) : httpResponse * storage :=
  if String.eqb feedId "" then
    (respond [("error", VStr "Feed ID is required")] 400, st)
  else
    match JSON_parse text with
    | None =>
        (respond [("error", VStr "Invalid JSON");
                  ("message", VStr "The request body must be valid JSON")] 400,
         st)
    | Some inputItem =>
        if negb (feedExists st feedId) then (notFound feedId, st)
        else
          match mapPublishedAt inputItem with
          | None => (serverError, st)
          | Some inputItem =>
              if negb (truthy (getprop_opt inputItem "content"))
                 && negb (truthy (getprop_opt inputItem "description"))
              then
                (respond
                   [("error",
                     VStr "Missing required field: content or description");
                    ("message",
                     VStr "Either content or description field is required for RSS items")]
                   400, st)
              else if negb (truthy (getprop_opt inputItem "link")) then
                (respond
                   [("error", VStr "Missing required field: link");
                    ("message",
                     VStr "The link field is required for RSS items")]
                   400, st)
              else
                match completeItemOf env inputItem with
                | None => (serverError, st)
                | Some completeItem =>
                    match addItem feedId completeItem st with
                    | (Ok _, st') =>
                        (respond
                           [("message", VStr "Item added successfully");
                            ("feedId", VStr feedId);
                            ("item", completeItem)] 200, st')
                    | (Throw (FeedNotFoundError _), st') =>
                        (respond
                           [("error", VStr "Feed Not Found");
                            ("message",
                             VStr ("Feed with ID '" +:+ feedId
                                   +:+ "' not found."))] 404, st')
                    | (Throw (DuplicateItemError guid), st') =>
                        (respond
                           [("error", VStr "Duplicate Item");
                            ("message",
                             VStr ("Item with GUID '" +:+ to_string guid
                                   +:+ "' already exists in this feed."))]
                           409, st')
                    | (Throw _, st') => (serverError, st')
                    end
                end
          end
    end.

End Routes.

(** ** The rest of the registry and the ledger ([storage.ts]) *)

Section StorageMore.
Context `{Runtime}.

(** [getStorageState()]: a copy of the store, key by key. *)
Definition getStorageState (st : storage) : storage := st.

(** [getItems(feedId)]; [useRedisMock] is whether the environment has
    [USE_REDIS_MOCK] set to ["true"], in which case an array found under the
    items key is returned as it is. *)
Definition getItems (useRedisMock : bool) (st : storage) (feedId : string)
  : result (list value) :=
  if negb (feedExists st feedId) then Throw (FeedNotFoundError feedId)
  else
    match getFeedConfig st feedId with
    | Throw (FeedNotFoundError f) => Throw (FeedNotFoundError f)
    | Throw _ => Throw (StorageError "Failed to get items")
    | Ok config =>
        let direct :=
          if useRedisMock
          then RedisMock.array_at (getStorageState st) (itemsKey feedId)
          else None in
        match direct with
        | Some stored => Ok stored
        | None =>
            Ok (RedisMock.lrange st (itemsKey feedId) (Some 0)
                  (num_sub (maxItems config) (Some 1)))
        end
    end.

(** [{ ...a, ...b }]: the properties of [b] written after those of [a],
    in writing order. *)
Definition mergeProps (a b : list (string * value)) : list (string * value) :=
  fold_left (fun acc p => set_prop (fst p) (snd p) acc) b a.

(** The record [updateFeedConfig] writes over the parsed record
    [parsedData]. *)
Definition updatedData (now : Z) (feedId : string) (config parsedData : value)
  : value :=
  VObj (set_prop "updatedAt" (VStr (toISOString now))
          (set_prop "feedConfig"
             (VObj (set_prop "id" (VStr feedId) (spread config)))
             (spread parsedData))).

(** The record [updateFeedConfig] starts from: the parsed record of the
    feed, or [{}] when there is nothing to parse or it does not parse. *)
Definition existingRecord (st : storage) (feedId : string) : value :=
  let existingData := RedisMock.get st (configKey feedId) in
  if truthy existingData
  then default (VObj []) (JSON_parse_value existingData)
  else VObj [].

(** [updateFeedConfig(feedId, config)] at clock reading [now]. *)
Definition updateFeedConfig (now : Z) (feedId : string) (config : value)
    (st : storage) : result unit * storage :=
  if negb (feedExists st feedId) then (Throw (FeedNotFoundError feedId), st)
  else
    let parsedData := existingRecord st feedId in
    (Ok tt,
     RedisMock.set st (configKey feedId)
       (JSON_stringify (updatedData now feedId config parsedData))).

Definition deleteFeed (feedId : string) (st : storage)
  : result unit * storage :=
  if negb (feedExists st feedId) then (Throw (FeedNotFoundError feedId), st)
  else
    (Ok tt,
     RedisMock.del
       (RedisMock.del (RedisMock.del st (configKey feedId)) (itemsKey feedId))
       (guidsKey feedId)).

(** The engine reads back the JSON text it writes for [v]. *)
Definition readsBack (v : value) : Prop :=
  JSON_stringify v ≠ "" ∧ JSON_parse (JSON_stringify v) = Some v.

End StorageMore.

(** ** The store as a list and as a set ([mock/redis.ts]) *)

(** Pushing values one after the other, first to last. *)
Definition lpushAll (st : storage) (key : string) (values : list string)
  : storage :=
  fold_left (fun st v => RedisMock.lpush st key v) values st.

(** A command on a set of strings. *)
Inductive setCommand : Type :=
  | SAdd (member : string)
  | SRem (member : string).

Definition runSetCommand (key : string) (st : storage) (c : setCommand)
  : storage :=
  match c with
  | SAdd member => RedisMock.sadd st key (VStr member)
  | SRem member => RedisMock.srem st key (VStr member)
  end.

(** The set of strings the commands describe. *)
Definition setAfter (X : gset string) (c : setCommand) : gset string :=
  match c with
  | SAdd member => X ∪ {[ member ]}
  | SRem member => X ∖ {[ member ]}
  end.

(** [n] calls of [incr] on a key, with the values returned. *)
Fixpoint incrTimes `{Runtime} (n : nat) (st : storage) (key : string)
  : list Z * storage :=
  match n with
  | O => ([], st)
  | S n' =>
      let '(r, st1) := RedisMockTimed.incr st key in
      let '(rs, st2) := incrTimes n' st1 key in
      (r :: rs, st2)
  end.

(** ** The sweep of the cache ([middleware/rate-limit.ts]) *)

Module Sweep.
Import RateLimit.

Definition MAX_CACHE_SIZE : Z := 10000.

(** [x] placed before the first entry that does not expire earlier, which
    is where a stable sort by [expires] puts an entry that came first. *)
Fixpoint insertByExpiry (x : string * entry) (l : list (string * entry))
  : list (string * entry) :=
  match l with
  | [] => [x]
  | y :: l' =>
      if expires (snd x) <=? expires (snd y) then x :: y :: l'
      else y :: insertByExpiry x l'
  end.

(** [entries.sort((a, b) => a[1].expires - b[1].expires)] *)
Definition sortByExpiry (entries : list (string * entry))
  : list (string * entry) :=
  foldr insertByExpiry [] entries.

(** [Array.from(cache.entries())], where [order] lists the keys in the
    order in which the Map iterates (the order of their first insertion). *)
Definition entriesOf (order : list string) (cache : memCache)
  : list (string * entry) :=
  omap (fun key => (fun e => (key, e)) <$> cache !! key) order.

(** The callback of [setInterval], run at clock reading [now]. *)
Definition sweep (now : Z) (order : list string) (cache : memCache)
  : memCache :=
  let cache1 := filter (fun kv => now < expires (snd kv)) cache in
  if MAX_CACHE_SIZE <? Z.of_nat (size cache1) then
    let entries := sortByExpiry (entriesOf order cache1) in
    let toRemove :=
      slice entries (Some 0)
        (Some (Some (Z.of_nat (length entries) - MAX_CACHE_SIZE))) in
    fold_left (fun c kv => delete (fst kv) c) toRemove cache1
  else cache1.

End Sweep.

(** ** Authentication ([middleware/authenticate.ts]) *)

(** How the middleware ends: it calls [next()], or answers 401 with an
    error and a message. *)
Inductive authOutcome : Type :=
  | AuthNext
  | Unauthorized (error message : string).

(** [s.substring(n)] *)
Fixpoint substringFrom (n : nat) (s : string) : string :=
  match n, s with
  | S n', String _ s' => substringFrom n' s'
  | _, _ => s
  end.

(** [authenticate(c, next)] for the secret [API_SECRET] and the value of
    the Authorization header. *)
Definition authenticate (API_SECRET : string) (authHeader : option string)
  : authOutcome :=
  match RateLimit.present authHeader with
  | None =>
      Unauthorized "Unauthorized: Missing Authorization header"
        "Please provide an API secret in the Authorization header using the format: Bearer <secret>"
  | Some authHeader =>
      if negb (String.prefix "Bearer " authHeader) then
        Unauthorized "Unauthorized: Invalid Authorization format"
          "Authorization header must use the format: Bearer <secret>"
      else
        let secret := substringFrom 7 authHeader in
        if negb (String.eqb secret API_SECRET) then
          Unauthorized "Unauthorized: Invalid API secret"
            "The provided API secret is invalid"
        else AuthNext
  end.

(** ** The other endpoints ([routes.ts])

    The message of a response with status 500 is kept without the
    interpolated cause. *)

(** A response built with [new Response(content, { headers })]. *)
Record textResponse : Type := TextResponse {
  textStatus : Z;
  textContentType : option string;
  textBody : value
}.

Section RoutesMore.
Context `{Runtime} `{Packages}.

(** [typeof v === "number" && v > 0 ? v : 100] *)
Definition maxItemsOrDefault (v : value) : value :=
  match v with
  | VNum n => if 0 <? n then VNum n else VNum 100
  | _ => VNum 100
  end.

(** The default copyright line, [`© ${new Date().getFullYear()}`]. *)
Definition copyrightNotice (now : Z) : value :=
  VStr ("© " +:+ Number_toString (getFullYear now)).

Definition formatsOf (feedId : string) : value :=
  VObj [("rss", VStr ("/" +:+ feedId +:+ "/rss.xml"));
        ("atom", VStr ("/" +:+ feedId +:+ "/atom.xml"));
        ("json", VStr ("/" +:+ feedId +:+ "/feed.json"));
        ("raw", VStr ("/" +:+ feedId +:+ "/raw.json"))].

(** The object [feedConfig] that [handleCreateFeed] builds from the body of
    the request. *)
Definition newFeedConfig (now : Z) (inputConfig : value) : value :=
  VObj [("id", getprop_opt inputConfig "id");
        ("title", getprop_opt inputConfig "title");
        ("description", getprop_opt inputConfig "description");
        ("siteUrl", getprop_opt inputConfig "siteUrl");
        ("language", or_else (getprop_opt inputConfig "language") (VStr "en"));
        ("copyright",
         or_else (getprop_opt inputConfig "copyright") (copyrightNotice now));
        ("maxItems", maxItemsOrDefault (getprop_opt inputConfig "maxItems"));
        ("image", getprop_opt inputConfig "image");
        ("favicon", getprop_opt inputConfig "favicon");
        ("author", getprop_opt inputConfig "author")].

Definition missingField (error message : string) : httpResponse :=
  respond [("error", VStr error); ("message", VStr message)] 400.

Definition invalidJson : httpResponse :=
  respond [("error", VStr "Invalid JSON");
           ("message", VStr "The request body must be valid JSON")] 400.

Definition isString (v : value) : bool :=
  match v with
  | VStr _ => true
  | _ => false
  end.

(** [handleCreateFeed] for the request body [text] at clock reading [now];
    reading a field of a body that is [null] throws outside the [try]. *)
Definition handleCreateFeed (now : Z) (text : string) (st : storage)
  : result httpResponse * storage :=
  match JSON_parse text with
  | None => (Ok invalidJson, st)
  | Some inputConfig =>
      match getprop inputConfig "title" with
      | None => (Throw TypeError, st)
      | Some title =>
          if negb (truthy title) then
            (Ok (missingField "Missing required field: title"
                   "Feed title is required"), st)
          else if negb (truthy (getprop_opt inputConfig "description")) then
            (Ok (missingField "Missing required field: description"
                   "Feed description is required"), st)
          else if negb (truthy (getprop_opt inputConfig "siteUrl")) then
            (Ok (missingField "Missing required field: siteUrl"
                   "Feed site URL is required"), st)
          else if negb (truthy (getprop_opt inputConfig "id"))
                  || negb (isString (getprop_opt inputConfig "id")) then
            (Ok (missingField "Missing or invalid required field: id"
                   "Feed id is required and must be a string"), st)
          else
            let feedConfig := newFeedConfig now inputConfig in
            match createFeed now feedConfig st with
            | (Ok feedId, st') =>
                (Ok (respond
                       [("message", VStr "Feed created successfully");
                        ("feedId", feedId);
                        ("config",
                         VObj (set_prop "id" feedId (spread feedConfig)));
                        ("formats", formatsOf (to_string feedId))] 201), st')
            | (Throw _, st') =>
                (Ok (respond
                       [("error", VStr "Feed Creation Error");
                        ("message", VStr "Failed to create feed")] 500), st')
            end
      end
  end.

(** The object [updatedConfig] of [handleUpdateConfig] before its bound is
    checked: the stored configuration overlaid with the body, or the body
    with defaults; [None] when building it throws. *)
Definition upsertConfig (now : Z) (feedId : string)
    (currentConfig : option value) (inputConfig : value) : option value :=
  match currentConfig with
  | Some currentConfig =>
      Some (VObj (set_prop "id" (VStr feedId)
                    (mergeProps (spread currentConfig) (spread inputConfig))))
  | None =>
      title ← getprop inputConfig "title";
      Some (VObj
              [("id", VStr feedId);
               ("title", or_else title (VStr "Untitled Feed"));
               ("description",
                or_else (getprop_opt inputConfig "description") (VStr "RSS Feed"));
               ("siteUrl", or_else (getprop_opt inputConfig "siteUrl") (VStr ""));
               ("language",
                or_else (getprop_opt inputConfig "language") (VStr "en"));
               ("copyright",
                or_else (getprop_opt inputConfig "copyright")
                  (copyrightNotice now));
               ("maxItems",
                maxItemsOrDefault (getprop_opt inputConfig "maxItems"));
               ("image", getprop_opt inputConfig "image");
               ("favicon", getprop_opt inputConfig "favicon");
               ("author", getprop_opt inputConfig "author")])
  end.

(** [updatedConfig.maxItems = 100] unless it is a positive number. *)
Definition ensureMaxItems (updatedConfig : value) : value :=
  match getprop_opt updatedConfig "maxItems" with
  | VNum n =>
      if n <=? 0 then VObj (set_prop "maxItems" (VNum 100) (spread updatedConfig))
      else updatedConfig
  | _ => VObj (set_prop "maxItems" (VNum 100) (spread updatedConfig))
  end.

Definition configError : httpResponse :=
  respond [("error", VStr "Configuration Error");
           ("message", VStr "Failed to update/create feed configuration")] 500.

(** [handleUpdateConfig] for the route parameter [feedId] and the request
    body [text]. *)
Definition handleUpdateConfig (now : Z) (feedId : string) (text : string)
    (st : storage) : httpResponse * storage :=
  if String.eqb feedId "" then
    (respond [("error", VStr "Feed ID is required")] 400, st)
  else
    match JSON_parse text with
    | None => (invalidJson, st)
    | Some inputConfig =>
        let feedAlreadyExists := feedExists st feedId in
        let current :=
          if feedAlreadyExists then
            match getFeedConfig st feedId with
            | Ok currentConfig => Ok (Some currentConfig)
            | Throw e => Throw e
            end
          else Ok None in
        match current with
        | Throw (FeedNotFoundError f) =>
            (respond
               [("error", VStr "Feed Not Found");
                ("message",
                 VStr ("Feed with ID '" +:+ f +:+ "' not found."))] 404, st)
        | Throw _ => (configError, st)
        | Ok currentConfig =>
            match upsertConfig now feedId currentConfig inputConfig with
            | None => (configError, st)
            | Some updatedConfig =>
                if negb (truthy (getprop_opt updatedConfig "title"))
                   || negb (truthy (getprop_opt updatedConfig "description"))
                   || negb (truthy (getprop_opt updatedConfig "siteUrl"))
                then
                  (respond
                     [("error", VStr "Invalid Configuration");
                      ("message",
                       VStr "title, description, and siteUrl are required fields")]
                     400, st)
                else
                  let updatedConfig := ensureMaxItems updatedConfig in
                  let '(r, st') :=
                    if feedAlreadyExists
                    then updateFeedConfig now feedId updatedConfig st
                    else
                      match createFeed now updatedConfig st with
                      | (Ok _, st') => (Ok tt, st')
                      | (Throw e, st') => (Throw e, st')
                      end in
                  match r with
                  | Ok _ =>
                      (respond
                         [("message",
                           VStr (if feedAlreadyExists
                                 then "Feed configuration updated successfully"
                                 else "Feed created successfully"));
                          ("feedId", VStr feedId);
                          ("config", updatedConfig);
                          ("created", VBool (negb feedAlreadyExists))] 200, st')
                  | Throw (FeedNotFoundError f) =>
                      (respond
                         [("error", VStr "Feed Not Found");
                          ("message",
                           VStr ("Feed with ID '" +:+ f +:+ "' not found."))]
                         404, st')
                  | Throw _ => (configError, st')
                  end
            end
        end
    end.

(** The record whose JSON text a successful [handleUpdateConfig] stores
    for the configuration [updatedConfig]. *)
Definition upsertRecord (now : Z) (feedId : string) (updatedConfig : value)
    (st : storage) : value :=
  if feedExists st feedId
  then updatedData now feedId updatedConfig (existingRecord st feedId)
  else VObj [("feedConfig", updatedConfig);
             ("createdAt", VStr (toISOString now))].

Definition feedNotFound (feedId : string) : textResponse :=
  {| textStatus := 404; textContentType := None;
     textBody :=
       VObj [("error", VStr "Feed Not Found");
             ("message",
              VStr ("Feed with ID '" +:+ feedId +:+ "' does not exist"))] |}.

Definition formatName (format : FeedFormat) : string :=
  match format with
  | rss => "rss"
  | atom => "atom"
  | json => "json"
  | raw => "raw"
  end.

Definition generationError (format : FeedFormat) : textResponse :=
  {| textStatus := 500; textContentType := None;
     textBody :=
       VObj [("error", VStr "Feed Generation Error");
             ("message",
              VStr ("Failed to generate " +:+ formatName format +:+ " feed"))] |}.

(** [handleFeedRequest(c, feedId, format)] at clock reading [now]. *)
Definition handleFeedRequest (now : Z) (useRedisMock : bool) (feedId : string)
    (format : FeedFormat) (st : storage) : textResponse :=
  if negb (feedExists st feedId) then feedNotFound feedId
  else
    match getItems useRedisMock st feedId with
    | Throw (FeedNotFoundError f) =>
        {| textStatus := 404; textContentType := None;
           textBody :=
             VObj [("error", VStr "Feed Not Found");
                   ("message",
                    VStr ("Feed with ID '" +:+ f +:+ "' not found."))] |}
    | Throw _ => generationError format
    | Ok items =>
        match getFeedConfig st feedId with
        | Throw (FeedNotFoundError f) =>
            {| textStatus := 404; textContentType := None;
               textBody :=
                 VObj [("error", VStr "Feed Not Found");
                       ("message",
                        VStr ("Feed with ID '" +:+ f +:+ "' not found."))] |}
        | Throw _ => generationError format
        | Ok feedConfig =>
            match generateFeed now (to_string <$> items) feedConfig format with
            | Ok r =>
                {| textStatus := 200;
                   textContentType := Some (contentType r);
                   textBody := VStr (content r) |}
            | Throw _ => generationError format
            end
        end
    end.

(** [handleClearItems] for the route parameter [feedId]. *)
Definition handleClearItems (feedId : string) (st : storage)
  : httpResponse * storage :=
  if String.eqb feedId "" then
    (respond [("error", VStr "Feed ID is required")] 400, st)
  else if negb (feedExists st feedId) then (notFound feedId, st)
  else
    match clearItems feedId st with
    | (Ok _, st') =>
        (respond [("message", VStr "All items cleared successfully");
                  ("feedId", VStr feedId)] 200, st')
    | (Throw (FeedNotFoundError f), st') =>
        (respond
           [("error", VStr "Feed Not Found");
            ("message", VStr ("Feed with ID '" +:+ f +:+ "' not found."))]
           404, st')
    | (Throw _, st') =>
        (respond [("error", VStr "Server Error");
                  ("message", VStr "Failed to clear feed items")] 500, st')
    end.

(** [handleGetItems] for the route parameter [feedId] and the query
    parameter [format], at clock reading [now]. *)
Definition handleGetItems (now : Z) (useRedisMock : bool) (feedId : string)
    (query : option string) (st : storage) : httpResponse :=
  if String.eqb feedId "" then
    respond [("error", VStr "Feed ID is required")] 400
  else
    let format := default "raw" (RateLimit.present query) in
    if negb (feedExists st feedId) then notFound feedId
    else
      match getItems useRedisMock st feedId with
      | Throw (FeedNotFoundError f) =>
          respond
            [("error", VStr "Feed Not Found");
             ("message", VStr ("Feed with ID '" +:+ f +:+ "' not found."))]
            404
      | Throw _ =>
          respond [("error", VStr "Server Error");
                   ("message", VStr "Failed to get feed items")] 500
      | Ok items =>
          if String.eqb format "raw" || String.eqb format "html" then
            let formattedItems :=
              formatItems now (to_string <$> items)
                (if String.eqb format "raw" then api_raw else api_html) in
            respond [("feedId", VStr feedId);
                     ("items", VArr formattedItems);
                     ("total", VNum (Z.of_nat (length formattedItems)))] 200
          else
            respond
              [("error",
                VStr ("Invalid format: " +:+ format
                      +:+ ". Valid formats are: raw, html"));
               ("message",
                VStr "Format determines how item content is returned: raw (HTML stripped) or html (HTML preserved)")]
              400
      end.

End RoutesMore.

(** ** A small engine

    Executable versions of the built-ins, for running the scenarios: JSON
    text over integers, strings, booleans, [null], arrays and objects
    (numbers with a fraction or an exponent are not read), dates in UTC. *)

Module Tiny.

Definition join (sep : string) (l : list string) : string :=
  match l with
  | [] => ""
  | x :: l' => fold_left (fun acc y => acc +:+ sep +:+ y) l' x
  end.

Definition pad (width : nat) (n : Z) : string :=
  let s := pretty (Z.abs n) in
  String.concat "" (replicate (width - String.length s) "0") +:+ s.

(** *** Calendar *)

Definition msPerDay : Z := 86400000.

(** Year, month (1-12) and day of the month of a day count from
    1970-01-01. *)
Definition civil (days : Z) : Z * Z * Z :=
  let z := days + 719468 in
  let era := z / 146097 in
  let doe := z - era * 146097 in
  let yoe := (doe - doe / 1460 + doe / 36524 - doe / 146096) / 365 in
  let doy := doe - (365 * yoe + yoe / 4 - yoe / 100) in
  let mp := (5 * doy + 2) / 153 in
  let d := doy - (153 * mp + 2) / 5 + 1 in
  let m := if mp <? 10 then mp + 3 else mp - 9 in
  let y := yoe + era * 400 + (if m <=? 2 then 1 else 0) in
  (y, m, d).

Definition daysFromCivil (y m d : Z) : Z :=
  let y' := if m <=? 2 then y - 1 else y in
  let era := y' / 400 in
  let yoe := y' - era * 400 in
  let doy := (153 * (if 2 <? m then m - 3 else m + 9) + 2) / 5 + d - 1 in
  let doe := yoe * 365 + yoe / 4 - yoe / 100 + doy in
  era * 146097 + doe - 719468.

Definition year_text (y : Z) : string :=
  if (0 <=? y) && (y <=? 9999) then pad 4 y
  else (if y <? 0 then "-" else "+") +:+ pad 6 y.

Definition clock_text (t : Z) : string :=
  let ms := t mod msPerDay in
  pad 2 (ms / 3600000) +:+ ":" +:+ pad 2 (ms / 60000 mod 60) +:+ ":"
  +:+ pad 2 (ms / 1000 mod 60).

Definition toISOString (t : Z) : string :=
  let '(y, m, d) := civil (t / msPerDay) in
  year_text y +:+ "-" +:+ pad 2 m +:+ "-" +:+ pad 2 d +:+ "T"
  +:+ clock_text t +:+ "." +:+ pad 3 (t mod 1000) +:+ "Z".

Definition getFullYear (t : Z) : Z := fst (fst (civil (t / msPerDay))).

Definition dayName (days : Z) : string :=
  nth (Z.to_nat ((days + 4) mod 7))
    ["Sun"; "Mon"; "Tue"; "Wed"; "Thu"; "Fri"; "Sat"] "".

Definition monthName (m : Z) : string :=
  nth (Z.to_nat (m - 1))
    ["Jan"; "Feb"; "Mar"; "Apr"; "May"; "Jun";
     "Jul"; "Aug"; "Sep"; "Oct"; "Nov"; "Dec"] "".

(** [String(new Date(t))]. *)
Definition date_text (t : option Z) : string :=
  match t with
  | None => "Invalid Date"
  | Some t =>
      let days := t / msPerDay in
      let '(y, m, d) := civil days in
      dayName days +:+ " " +:+ monthName m +:+ " " +:+ pad 2 d +:+ " "
      +:+ (if y <? 0 then "-" +:+ pad 6 y else pad 4 y) +:+ " "
      +:+ clock_text t +:+ " GMT+0000 (Coordinated Universal Time)"
  end.

(** The largest time value of a Date. *)
Definition maxTime : Z := 8640000000000000.

Definition time_clip (t : Z) : option Z :=
  if Z.abs t <=? maxTime then Some t else None.

(** *** Reading digits *)

Definition digit (c : ascii) : option Z :=
  let n := Z.of_nat (nat_of_ascii c) in
  if (48 <=? n) && (n <=? 57) then Some (n - 48) else None.

(** The longest run of digits at the head of [s], its value and the rest. *)
Fixpoint digits (acc : Z) (count : nat) (s : list ascii)
  : Z * nat * list ascii :=
  match s with
  | c :: s' =>
      match digit c with
      | Some d => digits (10 * acc + d) (S count) s'
      | None => (acc, count, s)
      end
  | [] => (acc, count, s)
  end.

(** Exactly [n] digits. *)
Definition fixed_digits (n : nat) (s : list ascii) : option (Z * list ascii) :=
  let '(v, count, _) := digits 0 0 (take n s) in
  if decide (count = n ∧ length (take n s) = n) then Some (v, drop n s)
  else None.

Definition expect (c : ascii) (s : list ascii) : option (list ascii) :=
  match s with
  | c' :: s' => if decide (c = c') then Some s' else None
  | [] => None
  end.

(** [Date.parse] of the form [YYYY-MM-DDTHH:mm:ss.sssZ]. *)
Definition parse_iso (text : string) : option Z :=
  '(y, s) ← fixed_digits 4 (String.list_ascii_of_string text);
  s ← expect "-" s; '(m, s) ← fixed_digits 2 s;
  s ← expect "-" s; '(d, s) ← fixed_digits 2 s;
  s ← expect "T" s; '(hh, s) ← fixed_digits 2 s;
  s ← expect ":" s; '(mm, s) ← fixed_digits 2 s;
  s ← expect ":" s; '(ss, s) ← fixed_digits 2 s;
  s ← expect "." s; '(ms, s) ← fixed_digits 3 s;
  s ← expect "Z" s;
  if decide (s = [] ∧ 1 ≤ m ≤ 12 ∧ 1 ≤ d
             ∧ civil (daysFromCivil y m d) = (y, m, d)
             ∧ hh ≤ 23 ∧ mm ≤ 59 ∧ ss ≤ 59)
  then Some (daysFromCivil y m d * msPerDay
             + hh * 3600000 + mm * 60000 + ss * 1000 + ms)
  else None.

Definition is_space (c : ascii) : bool :=
  let n := nat_of_ascii c in
  (n =? 32)%nat || (n =? 9)%nat || (n =? 10)%nat || (n =? 13)%nat
  || (n =? 11)%nat || (n =? 12)%nat.

Fixpoint skip_space (s : list ascii) : list ascii :=
  match s with
  | c :: s' => if is_space c then skip_space s' else s
  | [] => []
  end.

(** StringToNumber on decimal integers; the empty text is 0. *)
Definition StringToNumber (text : string) : num :=
  let s := rev (skip_space (rev (skip_space (String.list_ascii_of_string text)))) in
  match s with
  | [] => Some 0
  | c :: s' =>
      let '(sign, body) :=
        if decide (c = "-"%char) then (-1, s')
        else if decide (c = "+"%char) then (1, s') else (1, s) in
      match digits 0 0 body with
      | (v, S _, []) => Some (sign * v)
      | _ => None
      end
  end.

(** [parseInt(text, 10)]. *)
Definition parseInt (text : string) : num :=
  match skip_space (String.list_ascii_of_string text) with
  | [] => None
  | c :: s' =>
      let '(sign, body) :=
        if decide (c = "-"%char) then (-1, s')
        else if decide (c = "+"%char) then (1, s') else (1, c :: s') in
      match digits 0 0 body with
      | (v, S _, _) => Some (sign * v)
      | _ => None
      end
  end.

(** *** JSON text *)

Definition quote : ascii := ascii_of_nat 34.
Definition backslash : ascii := ascii_of_nat 92.

Definition text (l : list ascii) : string := String.string_of_list_ascii l.

Definition hex (n : Z) : ascii :=
  nth (Z.to_nat n) (String.list_ascii_of_string "0123456789abcdef") "0"%char.

Definition escape (c : ascii) : list ascii :=
  let n := Z.of_nat (nat_of_ascii c) in
  if n =? 34 then [backslash; quote]
  else if n =? 92 then [backslash; backslash]
  else if n =? 8 then [backslash; "b"%char]
  else if n =? 12 then [backslash; "f"%char]
  else if n =? 10 then [backslash; "n"%char]
  else if n =? 13 then [backslash; "r"%char]
  else if n =? 9 then [backslash; "t"%char]
  else if n <? 32 then
    [backslash; "u"%char; "0"%char; "0"%char; hex (n / 16); hex (n mod 16)]
  else [c].

Definition quoted (s : string) : string :=
  text (quote :: (String.list_ascii_of_string s ≫= escape) ++ [quote]).

(** [JSON.stringify(v)]; [None] where the engine gives [undefined], which
    drops a property and prints as [null] in an array. *)
Fixpoint print (v : value) : option string :=
  match v with
  | VUndef => None
  | VNull => Some "null"
  | VBool b => Some (if b then "true" else "false")
  | VNum n => Some (pretty n)
  | VStr s => Some (quoted s)
  | VDate None => Some "null"
  | VDate (Some t) => Some (quoted (toISOString t))
  | VArr l =>
      Some ("[" +:+ join "," (map (fun x => default "null" (print x)) l) +:+ "]")
  | VObj fs =>
      Some ("{"
            +:+ join ","
                  (omap (fun p => (fun s => quoted (fst p) +:+ ":" +:+ s)
                                    <$> print (snd p)) fs)
            +:+ "}")
  end.

Definition newline : string := String (ascii_of_nat 10) EmptyString.

Definition block (open close indent : string) (parts : list string) : string :=
  match parts with
  | [] => open +:+ close
  | _ =>
      open +:+ newline +:+ indent +:+ "  "
      +:+ join ("," +:+ newline +:+ indent +:+ "  ") parts
      +:+ newline +:+ indent +:+ close
  end.

(** [JSON.stringify(v, null, 2)] at the current indentation. *)
Fixpoint print_indented (indent : string) (v : value) : option string :=
  match v with
  | VArr l =>
      Some (block "[" "]" indent
              (map (fun x => default "null" (print_indented (indent +:+ "  ") x)) l))
  | VObj fs =>
      Some (block "{" "}" indent
              (omap (fun p => (fun s => quoted (fst p) +:+ ": " +:+ s)
                                <$> print_indented (indent +:+ "  ") (snd p)) fs))
  | _ => print v
  end.

Definition json_space (c : ascii) : bool :=
  let n := nat_of_ascii c in
  (n =? 32)%nat || (n =? 9)%nat || (n =? 10)%nat || (n =? 13)%nat.

Fixpoint skip_json_space (s : list ascii) : list ascii :=
  match s with
  | c :: s' => if json_space c then skip_json_space s' else s
  | [] => []
  end.

Definition unescape (c : ascii) : option ascii :=
  if decide (c = quote) then Some quote
  else if decide (c = backslash) then Some backslash
  else if decide (c = "/"%char) then Some "/"%char
  else if decide (c = "b"%char) then Some (ascii_of_nat 8)
  else if decide (c = "f"%char) then Some (ascii_of_nat 12)
  else if decide (c = "n"%char) then Some (ascii_of_nat 10)
  else if decide (c = "r"%char) then Some (ascii_of_nat 13)
  else if decide (c = "t"%char) then Some (ascii_of_nat 9)
  else None.

Definition hex_value (c : ascii) : option Z :=
  let n := Z.of_nat (nat_of_ascii c) in
  if (48 <=? n) && (n <=? 57) then Some (n - 48)
  else if (97 <=? n) && (n <=? 102) then Some (n - 87)
  else if (65 <=? n) && (n <=? 70) then Some (n - 55)
  else None.

(** The rest of a string literal after its opening quote; [\u] escapes are
    read below 128 only. *)
Fixpoint string_body (fuel : nat) (acc s : list ascii)
  : option (string * list ascii) :=
  match fuel, s with
  | S fuel', c :: s' =>
      if decide (c = quote) then Some (text (rev acc), s')
      else if decide (c = backslash) then
        match s' with
        | "u"%char :: a :: b :: c1 :: d :: s'' =>
            a ← hex_value a; b ← hex_value b;
            c1 ← hex_value c1; d ← hex_value d;
            let code := ((a * 16 + b) * 16 + c1) * 16 + d in
            if code <? 128 then
              string_body fuel' (ascii_of_nat (Z.to_nat code) :: acc) s''
            else None
        | e :: s'' => e' ← unescape e; string_body fuel' (e' :: acc) s''
        | [] => None
        end
      else if (nat_of_ascii c <? 32)%nat then None
      else string_body fuel' (c :: acc) s'
  | _, _ => None
  end.

Definition literal (word : string) (v : value) (s : list ascii)
  : option (value * list ascii) :=
  let w := String.list_ascii_of_string word in
  if decide (take (length w) s = w) then Some (v, drop (length w) s) else None.

(** An integer; a fraction or an exponent is not read. *)
Definition number (s : list ascii) : option (value * list ascii) :=
  let '(sign, body) :=
    match s with
    | c :: s' => if decide (c = "-"%char) then (-1, s') else (1, s)
    | [] => (1, s)
    end in
  match digits 0 0 body with
  | (v, S count, rest) =>
      let leading_zero :=
        match body with
        | c :: _ => bool_decide (c = "0"%char) && negb (count =? 0)%nat
        | [] => false
        end in
      let more :=
        match rest with
        | c :: _ =>
            bool_decide (c = "."%char) || bool_decide (c = "e"%char)
            || bool_decide (c = "E"%char)
        | [] => false
        end in
      if leading_zero || more then None else Some (VNum (sign * v), rest)
  | _ => None
  end.

Section Composite.
Variable value_at : list ascii → option (value * list ascii).

(** The elements of an array, from the start of an element. *)
Fixpoint elements (fuel : nat) (acc : list value) (s : list ascii)
  : option (value * list ascii) :=
  match fuel with
  | O => None
  | S fuel' =>
      '(v, s1) ← value_at s;
      match skip_json_space s1 with
      | c :: s2 =>
          if decide (c = ","%char) then elements fuel' (acc ++ [v]) s2
          else if decide (c = "]"%char) then Some (VArr (acc ++ [v]), s2)
          else None
      | [] => None
      end
  end.

(** The members of an object, from the start of a member. *)
Fixpoint members (fuel : nat) (acc : list (string * value)) (s : list ascii)
  : option (value * list ascii) :=
  match fuel with
  | O => None
  | S fuel' =>
      s0 ← expect quote (skip_json_space s);
      '(k, s1) ← string_body (length s0) [] s0;
      s2 ← expect ":"%char (skip_json_space s1);
      '(v, s3) ← value_at s2;
      match skip_json_space s3 with
      | c :: s4 =>
          if decide (c = ","%char) then members fuel' (set_prop k v acc) s4
          else if decide (c = "}"%char) then Some (VObj (set_prop k v acc), s4)
          else None
      | [] => None
      end
  end.

End Composite.

Fixpoint value_at (fuel : nat) (s : list ascii) : option (value * list ascii) :=
  match fuel with
  | O => None
  | S fuel' =>
      match skip_json_space s with
      | [] => None
      | c :: s' =>
          if decide (c = "{"%char) then
            match skip_json_space s' with
            | c' :: s'' =>
                if decide (c' = "}"%char) then Some (VObj [], s'')
                else members (value_at fuel') fuel' [] s'
            | [] => None
            end
          else if decide (c = "["%char) then
            match skip_json_space s' with
            | c' :: s'' =>
                if decide (c' = "]"%char) then Some (VArr [], s'')
                else elements (value_at fuel') fuel' [] s'
            | [] => None
            end
          else if decide (c = quote) then
            '(str, rest) ← string_body (length s') [] s'; Some (VStr str, rest)
          else if decide (c = "t"%char) then literal "true" (VBool true) (c :: s')
          else if decide (c = "f"%char) then literal "false" (VBool false) (c :: s')
          else if decide (c = "n"%char) then literal "null" VNull (c :: s')
          else number (c :: s')
      end
  end.

(** [JSON.parse(text)]. *)
Definition parse (t : string) : option value :=
  let s := String.list_ascii_of_string t in
  '(v, rest) ← value_at (S (length s)) s;
  if decide (skip_json_space rest = []) then Some v else None.

(** ToString. *)
Fixpoint ToString (v : value) : string :=
  match v with
  | VUndef => "undefined"
  | VNull => "null"
  | VBool b => if b then "true" else "false"
  | VNum n => pretty n
  | VStr s => s
  | VDate t => date_text t
  | VArr l =>
      join ","
        (map (fun x => match x with
                       | VUndef | VNull => EmptyString
                       | _ => ToString x
                       end) l)
  | VObj _ => "[object Object]"
  end.

(** The time value of [new Date(v)]. *)
Definition Date_of (v : value) : num :=
  match v with
  | VUndef => None
  | VNull => Some 0
  | VBool b => Some (if b then 1 else 0)
  | VNum n => time_clip n
  | VDate t => t
  | VStr _ | VArr _ | VObj _ => parse_iso (ToString v) ≫= time_clip
  end.

Definition runtime : Runtime :=
  {| JS.JSON_parse := parse;
     JS.JSON_stringify := fun v => default "undefined" (print v);
     JS.JSON_stringify_pretty :=
       fun v => default "undefined" (print_indented EmptyString v);
     JS.ToString := ToString;
     JS.StringToNumber := StringToNumber;
     JS.Date_of := Date_of;
     JS.toISOString := toISOString;
     JS.getFullYear := getFullYear;
     JS.parseInt := parseInt;
     JS.Number_toString := pretty |}.

(** *** Stand-ins for the packages

    The HTML parser and the sanitizer are replaced by one function that
    removes everything from a [<] to the next [>]; the serialisers print
    the options and the items as JSON. *)

Fixpoint stripTags (inTag : bool) (s : string) : string :=
  match s with
  | EmptyString => EmptyString
  | String c s' =>
      if inTag then stripTags (negb (Ascii.eqb c ">"%char)) s'
      else if Ascii.eqb c "<"%char then stripTags true s'
      else String c (stripTags false s')
  end.

Definition textOf (v : value) : option string :=
  match v with
  | VStr s => Some (stripTags false s)
  | _ => None
  end.

Definition serialise (options : value) (items : list value) : option string :=
  print (VObj [("options", options); ("items", VArr items)]).

Definition packages : Packages :=
  {| textContent := textOf;
     sanitizeHtml v _ := textOf v;
     rss2 := serialise;
     atom1 := serialise;
     json1 := serialise |}.

End Tiny.

(** ** Scenarios *)

Module Scenario.

(** A feed [f1] that keeps two items, as [createFeed] stores it at clock
    reading 0. *)
Definition config2 : value :=
  VObj [("id", VStr "f1"); ("title", VStr "T"); ("description", VStr "D");
        ("siteUrl", VStr "https://x"); ("maxItems", VNum 2)].

Definition store0 : storage := snd (@createFeed Tiny.runtime 0 config2 ∅).

(** The same feed stored with maxItems = 0. *)
Definition config0 : value :=
  VObj [("id", VStr "f1"); ("title", VStr "T"); ("description", VStr "D");
        ("siteUrl", VStr "https://x"); ("maxItems", VNum 0)].

Definition storeZero : storage := snd (@createFeed Tiny.runtime 0 config0 ∅).

Definition item (guid link : string) : value :=
  VObj [("guid", VStr guid); ("link", VStr link); ("content", VStr "hi")].

Definition itemA : value := item "a" "https://x/a".
Definition itemB : value := item "b" "https://x/b".
Definition itemC : value := item "c" "https://x/c".

(** The store after adding A, B and C in that order. *)
Definition storeABC : storage :=
  snd (List.last (@addItems Tiny.runtime "f1" [itemA; itemB; itemC] store0)
         (Ok tt, store0)).

(** A store that cannot be reached. *)
Definition unreachable : RemoteStore unit :=
  {| pipelineIncrTtl _ _ s := (ExecThrows, s);
     remoteExpire _ _ _ s := (None, s) |}.

Definition freshMock : mock := {| data := ∅; timers := [] |}.

Definition getFrom (ip : string) : RateLimit.request :=
  {| RateLimit.method := "GET";
     RateLimit.cf_connecting_ip := None;
     RateLimit.x_forwarded_for := Some ip;
     RateLimit.x_real_ip := None |}.

(** The JSON text of a value. *)
Definition textOf (v : value) : string :=
  JSON_stringify (Runtime := Tiny.runtime) v.

(** Two stored strings: an item with markup and a date, and a string that
    is not JSON. *)
Definition markedUp : string :=
  textOf (VObj [("title", VStr "<b>T</b>");
                ("description", VStr "<i>D</i>");
                ("content", VStr "<p>hi</p>");
                ("date", VNum 86400000)]).

Definition notJson : string := "oops".

(** A stored string without a date. *)
Definition undated : string := textOf (VObj []).

(** A request body whose link has the [javascript] scheme and whose
    copyright holds a script element. *)
Definition hostile : string :=
  textOf (VObj [("link", VStr "javascript:alert(1)");
                ("content", VStr "<p>hi</p>");
                ("copyright", VStr "<script>alert(1)</script>")]).

(** A request body with markup in its title and content. *)
Definition friendly : string :=
  textOf (VObj [("link", VStr "https://x/1");
                ("title", VStr "<b>T</b>");
                ("content", VStr "<b>hi</b>");
                ("guid", VStr "g1")]).

Definition ambient0 : ambient := {| clock := 1000; uuid := "u-1" |}.

End Scenario.


(** ** Further scenarios *)

Module Cases.

(** The store of [Scenario.storeABC] with a second feed [f2] created. *)
Definition configF2 : value :=
  VObj [("id", VStr "f2"); ("title", VStr "T2"); ("description", VStr "D2");
        ("siteUrl", VStr "https://y"); ("maxItems", VNum 3)].

Definition twoFeeds : storage :=
  snd (@createFeed Tiny.runtime 0 configF2 Scenario.storeABC).

(** A store in which [f2] has one item. *)
Definition twoFeedsOneItem : storage :=
  snd (@addItem Tiny.runtime "f2" Scenario.itemA twoFeeds).

(** A new configuration for [f1], carrying another id. *)
Definition configNew : value :=
  VObj [("id", VStr "other"); ("title", VStr "New"); ("maxItems", VNum 9)].


(** A cache with one live and one expired entry at clock reading 50, and
    the order in which its keys were inserted. *)
Definition smallCache : RateLimit.memCache :=
  <["ratelimit:a" := {| RateLimit.count := 3; RateLimit.expires := 100 |}]>
    (<["ratelimit:b" := {| RateLimit.count := 7; RateLimit.expires := 40 |}]> ∅).

Definition smallOrder : list string := ["ratelimit:b"; "ratelimit:a"].

(** A request body for a new feed [f9] whose bound is not positive. *)
Definition newFeedBody : string :=
  Scenario.textOf
    (VObj [("id", VStr "f9"); ("title", VStr "T9"); ("description", VStr "D9");
           ("siteUrl", VStr "https://z"); ("maxItems", VNum 0)]).

(** A request body that changes the title and the bound of a feed. *)
Definition patchBody : string :=
  Scenario.textOf (VObj [("title", VStr "New title"); ("maxItems", VNum 0)]).

(** A store in which [f1] holds a string that is not JSON and an item with
    markup. *)
Definition storeMixed : storage :=
  RedisMock.lpush
    (RedisMock.lpush Scenario.store0 (itemsKey "f1") Scenario.markedUp)
    (itemsKey "f1") Scenario.notJson.

(** A store holding a list of four strings. *)
Definition fourStrings : storage :=
  lpushAll ∅ "l" ["d"; "c"; "b"; "a"].

End Cases.

(** * Properties *)

(** ** Keys of one feed *)

Lemma itemsKey_ne_guidsKey feedId : itemsKey feedId ≠ guidsKey feedId.
Proof.
  unfold itemsKey, guidsKey. intros E.
  apply (inj (String.app "feed:")) in E.
  apply (inj (String.app feedId)) in E. discriminate.
Qed.

Lemma append_length (a b : string) :
  String.length (a +:+ b) = (String.length a + String.length b)%nat.
Proof. induction a as [|c a IH]; simpl; [done | by rewrite IH]. Qed.

Lemma configKey_ne_itemsKey feedId : configKey feedId ≠ itemsKey feedId.
Proof.
  unfold configKey, itemsKey. intros E.
  apply (inj (String.app "feed:")) in E.
  apply (f_equal String.length) in E. rewrite append_length in E.
  simpl in E. lia.
Qed.

Lemma configKey_ne_guidsKey feedId : configKey feedId ≠ guidsKey feedId.
Proof.
  unfold configKey, guidsKey. intros E.
  apply (inj (String.app "feed:")) in E.
  apply (f_equal String.length) in E. rewrite append_length in E.
  simpl in E. lia.
Qed.

(** ** The store's operations, key by key *)

Module RedisMockFacts.
Import RedisMock.

Lemma read_insert_eq (st : storage) k v : read (<[k := v]> st) k = v.
Proof. unfold read. by rewrite lookup_insert_eq. Qed.

Lemma read_insert_ne (st : storage) k k' v :
  k ≠ k' → read (<[k := v]> st) k' = read st k'.
Proof. intros. unfold read. by rewrite lookup_insert_ne. Qed.

Lemma array_at_lpush st k v :
  array_at (lpush st k v) k = Some (VStr v :: as_array st k).
Proof. unfold array_at, lpush. by rewrite read_insert_eq. Qed.

Lemma read_lpush_ne st k k' v : k ≠ k' → read (lpush st k v) k' = read st k'.
Proof. intros. unfold lpush. by rewrite read_insert_ne. Qed.

Lemma read_sadd_ne st k k' m : k ≠ k' → read (sadd st k m) k' = read st k'.
Proof.
  intros. unfold sadd. destruct (includes _ _); by rewrite read_insert_ne.
Qed.

Lemma read_srem_ne st k k' m : k ≠ k' → read (srem st k m) k' = read st k'.
Proof.
  intros. unfold srem. destruct (array_at st k); [|done].
  destruct (includes _ _); [by rewrite read_insert_ne | done].
Qed.

Lemma read_ltrim_ne st k k' a b : k ≠ k' → read (ltrim st k a b) k' = read st k'.
Proof.
  intros. unfold ltrim. destruct (array_at st k); [|done].
  by rewrite read_insert_ne.
Qed.

Lemma array_at_read st st' k : read st' k = read st k → array_at st' k = array_at st k.
Proof. unfold array_at. by intros ->. Qed.

Lemma slice_keep_first {A} (l : list A) (m : Z) :
  0 < m → slice l (Some 0) (Some (Some m)) = take (Z.to_nat m) l.
Proof.
  intros Hm. unfold slice, rel_index, to_integer. simpl.
  replace (m <? 0) with false by lia.
  rewrite (Z.min_l 0) by lia. rewrite Z.sub_0_r. simpl.
  destruct (decide (m ≤ Z.of_nat (length l))) as [Hle|Hgt].
  - by rewrite Z.min_l by lia.
  - rewrite Z.min_r by lia. rewrite Nat2Z.id.
    change (Z.to_nat 0) with 0%nat. rewrite drop_0.
    rewrite !take_ge; [done | lia | lia].
Qed.

Lemma array_at_ltrim_keep_first st k l m :
  array_at st k = Some l → 0 < m →
  array_at (ltrim st k (Some 0) (Some (m - 1))) k = Some (take (Z.to_nat m) l).
Proof.
  intros Hl Hm. unfold ltrim. rewrite Hl. simpl.
  replace (m - 1 <? 0) with false by lia.
  rewrite decide_False by (intros [=]; lia).
  unfold array_at. rewrite read_insert_eq. simpl.
  replace (m - 1 + 1) with m by lia. by rewrite slice_keep_first.
Qed.

End RedisMockFacts.

(** ** The item ledger *)

Section StorageFacts.
Context `{Runtime}.
Import RedisMock RedisMockFacts.

Lemma array_at_afterTrim feedId item guid m st :
  0 < m →
  array_at (afterTrim feedId item guid (Some m) st) (itemsKey feedId)
  = Some (take (Z.to_nat m)
            (VStr (JSON_stringify item) :: as_array st (itemsKey feedId))).
Proof.
  intros Hm. unfold afterTrim. simpl.
  apply array_at_ltrim_keep_first; [|done].
  destruct (truthy guid).
  - rewrite (array_at_read (lpush st (itemsKey feedId) (JSON_stringify item))).
    + apply array_at_lpush.
    + apply read_sadd_ne. intros E. by apply (itemsKey_ne_guidsKey feedId).
  - apply array_at_lpush.
Qed.


(** With a positive bound the count read back after the trim never exceeds
    it, so a successful [addItem] leaves exactly the trimmed store. *)
Lemma addItem_ok_inv feedId item st st' config m :
  getFeedConfig st feedId = Ok config →
  maxItems config = Some m → 0 < m →
  addItem feedId item st = (Ok tt, st') →
  ∃ guid, getprop item "guid" = Some guid
          ∧ st' = afterTrim feedId item guid (Some m) st.
Proof.
  intros Hcfg Hmax Hm. unfold addItem, addItem_try. rewrite Hcfg.
  destruct (feedExists st feedId); simpl; [|discriminate].
  destruct (getprop item "guid") as [guid|]; [|discriminate].
  destruct (if truthy guid then itemExists st feedId guid else Ok false)
    as [[|]|e]; [discriminate| |destruct e; discriminate].
  rewrite Hmax.
  fold (afterTrim feedId item guid (Some m) st).
  unfold llen. rewrite array_at_afterTrim by done.
  set (l := take _ _).
  assert (Z.of_nat (length l) ≤ m) as Hlen.
  { subst l. rewrite length_take. lia. }
  unfold num_gt, num_lt. replace (m <? Z.of_nat (length l)) with false by lia.
  intros [= <-]. by exists guid.
Qed.



Lemma read_cleanupGuids_ne k k' removed st :
  k ≠ k' → read (cleanupGuids k removed st) k' = read st k'.
Proof.
  intros Hne. revert st. induction removed as [|j rest IH]; intros st; [done|].
  simpl. rewrite IH.
  destruct (JSON_parse_value j) as [removedItem|]; [|done].
  destruct (getprop removedItem "guid") as [g|]; [|done].
  destruct (truthy g); [by apply read_srem_ne | done].
Qed.


Lemma getFeedConfig_read st st' feedId :
  read st' (configKey feedId) = read st (configKey feedId) →
  getFeedConfig st' feedId = getFeedConfig st feedId.
Proof. intros E. unfold getFeedConfig, get. by rewrite E. Qed.


End StorageFacts.

(** Without a positive bound nothing is trimmed: [ltrim(key, 0, -1)] keeps
    the whole list (and the clean-up then empties the index). *)
Example addItem_with_maxItems_zero :
  (fun r => (fst r, length (ledger (snd r) "f1")))
    <$> @addItems Tiny.runtime "f1" [Scenario.itemA; Scenario.itemB]
          Scenario.storeZero
  = [(Ok tt, 1%nat); (Ok tt, 2%nat)]
  ∧ inGuidIndex
      (snd (List.last
              (@addItems Tiny.runtime "f1" [Scenario.itemA; Scenario.itemB]
                 Scenario.storeZero) (Ok tt, Scenario.storeZero)))
      "f1" (VStr "b") = false.
Proof. vm_compute. done. Qed.


Section LedgerClaims.
Context `{Runtime}.
Import RedisMock RedisMockFacts.

(** C3. On an existing feed, an item whose guid is set and already in the
    feed's GUID index is refused with DuplicateItemError, and the store
    (item list and index included) is left exactly as it was. *)
Theorem addItem_duplicate_rejected feedId item guid st :
  feedExists st feedId = true →
  getprop item "guid" = Some guid →
  truthy guid = true →
  inGuidIndex st feedId guid = true →
  addItem feedId item st = (Throw (DuplicateItemError guid), st)
  ∧ ledger (snd (addItem feedId item st)) feedId = ledger st feedId
  ∧ ∀ g, inGuidIndex (snd (addItem feedId item st)) feedId g
         = inGuidIndex st feedId g.
Proof.
  intros Hex Hguid Hset Hin.
  assert (addItem feedId item st = (Throw (DuplicateItemError guid), st)) as E.
  { unfold addItem, addItem_try, itemExists.
    rewrite Hex, Hguid, Hset. simpl.
    unfold inGuidIndex in Hin. by rewrite Hin. }
  rewrite E. done.
Qed.

(** With a positive bound, a successful [addItem] removes nothing from the
    GUID index: the count is read back after the trim, so the clean-up of
    the evicted guids never runs. *)
Lemma addItem_keeps_index feedId item st st' config m g :
  getFeedConfig st feedId = Ok config →
  maxItems config = Some m → 0 < m →
  addItem feedId item st = (Ok tt, st') →
  inGuidIndex st feedId g = true →
  inGuidIndex st' feedId g = true.
Proof.
  intros Hcfg Hmax Hm Hadd.
  destruct (addItem_ok_inv _ _ _ _ _ _ Hcfg Hmax Hm Hadd) as (guid & _ & ->).
  unfold inGuidIndex, sismember, afterTrim.
  assert (itemsKey feedId ≠ guidsKey feedId) as Hne
    by apply itemsKey_ne_guidsKey.
  rewrite (array_at_read _ _ _ (read_ltrim_ne _ _ _ _ _ Hne)).
  destruct (array_at st (guidsKey feedId)) as [l|] eqn:Hl; [|done].
  destruct (includes l g) eqn:Hg; [|done]. intros _.
  assert (as_array (lpush st (itemsKey feedId) (JSON_stringify item))
            (guidsKey feedId) = l) as Harr.
  { unfold as_array. rewrite read_lpush_ne by done.
    unfold array_at in Hl. by destruct (read st (guidsKey feedId)); simplify_eq. }
  destruct (truthy guid).
  - unfold sadd. rewrite Harr.
    destruct (includes l guid); unfold array_at; rewrite read_insert_eq.
    + by rewrite Hg.
    + unfold includes in *. rewrite existsb_app, Hg. done.
  - rewrite (array_at_read st) by (by apply read_lpush_ne).
    by rewrite Hl, Hg.
Qed.

End LedgerClaims.

Lemma addItem_duplicate_rejected_witness :
  @addItem Tiny.runtime "f1" Scenario.itemC Scenario.storeABC
  = (Throw (DuplicateItemError (VStr "c")), Scenario.storeABC)
  ∧ ledger
      (snd (@addItem Tiny.runtime "f1" Scenario.itemC Scenario.storeABC)) "f1"
    = ledger Scenario.storeABC "f1"
  ∧ ∀ g, inGuidIndex
           (snd (@addItem Tiny.runtime "f1" Scenario.itemC Scenario.storeABC))
           "f1" g
         = inGuidIndex Scenario.storeABC "f1" g.
Proof.
  apply (@addItem_duplicate_rejected Tiny.runtime "f1" Scenario.itemC
           (VStr "c") Scenario.storeABC); vm_compute; reflexivity.
Defined.

(** C2. In a feed with maxItems = 2, after adding A, B and C the stored
    list is [C, B], but the guid of the evicted item A is still in the GUID
    index, and adding A again is refused as a duplicate. *)
Theorem evicted_guid_stays_in_index :
  ledger Scenario.storeABC "f1"
  = [VStr (JSON_stringify (Runtime := Tiny.runtime) Scenario.itemC);
     VStr (JSON_stringify (Runtime := Tiny.runtime) Scenario.itemB)]
  ∧ inGuidIndex Scenario.storeABC "f1" (VStr "a") = true
  ∧ fst (@addItem Tiny.runtime "f1" Scenario.itemA Scenario.storeABC)
    = Throw (DuplicateItemError (VStr "a")).
Proof. vm_compute. done. Qed.

(** ** The feed registry *)

Section RegistryClaims.
Context `{Runtime}.
Import RedisMock RedisMockFacts.

(** C7, as the code has it. [createFeed] on a configuration object whose id
    is absent or empty throws a StorageError and writes nothing; with an id
    it returns the id and writes the record (the configuration and the
    creation timestamp) under the feed's key whatever the key held before,
    so that the feed exists afterwards. *)
Theorem createFeed_storage_error_or_overwrite now config id st :
  getprop config "id" = Some id →
  (truthy id = false →
   createFeed now config st
   = (Throw (StorageError "Feed ID is required when creating a feed"), st))
  ∧ (truthy id = true →
     fst (createFeed now config st) = Ok id
     ∧ read (snd (createFeed now config st)) (configKey (to_string id))
       = VStr (JSON_stringify
                 (VObj [("feedConfig", config);
                        ("createdAt", VStr (toISOString now))]))
     ∧ feedExists (snd (createFeed now config st)) (to_string id) = true
     ∧ ∀ k, k ≠ configKey (to_string id) →
            read (snd (createFeed now config st)) k = read st k).
Proof.
  intros Hid. unfold createFeed. rewrite Hid. split; intros Ht; rewrite Ht.
  - done.
  - simpl. unfold RedisMock.set, feedExists, exists_.
    rewrite read_insert_eq. repeat split.
    intros k Hk. by rewrite read_insert_ne.
Qed.

End RegistryClaims.

Lemma createFeed_storage_error_or_overwrite_witness :
  (truthy (VStr "f1") = false →
   @createFeed Tiny.runtime 7 Scenario.config2 Scenario.store0
   = (Throw (StorageError "Feed ID is required when creating a feed"),
      Scenario.store0))
  ∧ (truthy (VStr "f1") = true →
     fst (@createFeed Tiny.runtime 7 Scenario.config2 Scenario.store0)
     = Ok (VStr "f1")
     ∧ RedisMock.read
         (snd (@createFeed Tiny.runtime 7 Scenario.config2 Scenario.store0))
         (configKey "f1")
       = VStr (JSON_stringify (Runtime := Tiny.runtime)
                 (VObj [("feedConfig", Scenario.config2);
                        ("createdAt", VStr (Tiny.toISOString 7))]))
     ∧ feedExists
         (snd (@createFeed Tiny.runtime 7 Scenario.config2 Scenario.store0))
         "f1" = true
     ∧ ∀ k, k ≠ configKey "f1" →
            RedisMock.read
              (snd (@createFeed Tiny.runtime 7 Scenario.config2 Scenario.store0))
              k
            = RedisMock.read Scenario.store0 k).
Proof.
  apply (@createFeed_storage_error_or_overwrite Tiny.runtime 7 Scenario.config2
           (VStr "f1") Scenario.store0).
  reflexivity.
Defined.

(** C7, the error class: without an id [createFeed] throws a StorageError
    (status 500), not a FeedConfigurationError. *)
Lemma createFeed_missing_id_not_configuration_error :
  let r := fst (@createFeed Tiny.runtime 0 (VObj [("title", VStr "T")]) ∅) in
  r = Throw (StorageError "Feed ID is required when creating a feed")
  ∧ (∀ message, r ≠ Throw (FeedConfigurationError message))
  ∧ (∀ e, r = Throw e → statusCode e = Some 500).
Proof.
  simpl. split; [reflexivity|]. split.
  - intros message. discriminate.
  - intros e [= <-]. reflexivity.
Qed.

(** ** The rate limiter *)

Section FailOpen.
Context {S : Type} `{RemoteStore S}.
Import RateLimit.

(** C4. For a GET request that is not served from a live cache entry, if
    the batched increment throws or does not deliver two results, the
    middleware calls [next()] (the request is admitted, nothing is thrown)
    and the cache is left as it was. *)
Theorem rateLimiter_fails_open req now cache remote :
  method req = "GET" →
  (∀ cached, cache !! rateKey req = Some cached → expires cached ≤ now) →
  execFailed (fst (pipelineIncrTtl now (rateKey req) remote)) →
  result_of (rateLimiter req now cache remote) = Next
  ∧ cache_of (rateLimiter req now cache remote) = cache.
Proof.
  intros Hget Hstale Hfail. unfold rateLimiter. rewrite Hget. simpl.
  assert (result_of (viaRemote (rateKey req) now cache remote) = Next
          ∧ cache_of (viaRemote (rateKey req) now cache remote) = cache) as Hr.
  { unfold viaRemote.
    destruct (pipelineIncrTtl now (rateKey req) remote) as [[|[results|]] r'];
      simpl in *; [done| |done].
    destruct results as [|a [|b rest]]; simpl in *; [done|done|lia]. }
  destruct (cache !! rateKey req) as [cached|] eqn:Hc; [|done].
  specialize (Hstale cached eq_refl).
  replace (now <? expires cached) with false by lia. done.
Qed.

(** A failure of [expire] is swallowed in the same way. *)
Lemma rateLimiter_expire_fails_open key now cache remote requests ttl rest remote' :
  pipelineIncrTtl now key remote
  = (ExecReturns (Some (requests :: ttl :: rest)), remote') →
  requests = 1 ∨ ttl < 0 →
  fst (remoteExpire now key (windowMs / 1000) remote') = None →
  result_of (viaRemote key now cache remote) = Next.
Proof.
  intros Hp Hnew Hexp. unfold viaRemote. rewrite Hp.
  replace ((requests =? 1) || (ttl <? 0)) with true
    by (symmetry; apply orb_true_iff; lia).
  by destruct (remoteExpire now key (windowMs / 1000) remote') as [[z|] r''];
    simpl in *.
Qed.

End FailOpen.

Lemma rateLimiter_fails_open_witness :
  RateLimit.result_of
    (RateLimit.rateLimiter (H := Scenario.unreachable)
       (Scenario.getFrom "10.0.0.1") 5 ∅ tt) = RateLimit.Next
  ∧ RateLimit.cache_of
      (RateLimit.rateLimiter (H := Scenario.unreachable)
         (Scenario.getFrom "10.0.0.1") 5 ∅ tt) = ∅.
Proof.
  apply (@rateLimiter_fails_open unit Scenario.unreachable
           (Scenario.getFrom "10.0.0.1") 5 ∅ tt).
  - reflexivity.
  - intros cached Hc. rewrite lookup_empty in Hc. discriminate.
  - simpl. exact I.
Defined.

Section Window.
Context `{Runtime}.
Import RedisMock RedisMockFacts RedisMockTimed RateLimit.

Lemma key_ne_expiryKey key : key ≠ expiryKey key.
Proof.
  unfold expiryKey. intros E. apply (f_equal String.length) in E.
  rewrite append_length in E. simpl in E. lia.
Qed.

(** A request served from a live cache entry: the count in the cache goes
    up by one and the remote store is not touched. *)
Lemma rateLimiter_cached {S} `{RemoteStore S} req now cache (remote : S) c e :
  method req = "GET" →
  cache !! rateKey req = Some {| count := c; expires := e |} →
  now < e →
  rateLimiter req now cache remote
  = decide_request now (c + 1) ((e - now) / 1000)
      (<[rateKey req := {| count := c + 1; expires := e |}]> cache) remote.
Proof.
  intros Hget Hc Hlive. unfold rateLimiter. rewrite Hget, Hc. simpl.
  by replace (now <? e) with true by lia.
Qed.

Lemma serve_cached {S} `{RemoteStore S} req ts cache (remote : S) c e :
  method req = "GET" →
  cache !! rateKey req = Some {| count := c; expires := e |} →
  Forall (fun t => t < e) ts →
  serve ((fun t => (req, t)) <$> ts) cache remote
  = (cachedOutcomes c (length ts),
     <[rateKey req := {| count := c + Z.of_nat (length ts); expires := e |}]> cache,
     remote).
Proof.
  intros Hget. revert cache c.
  induction ts as [|t ts IH]; intros cache c Hc Hts.
  - simpl. rewrite Z.add_0_r. by rewrite insert_id.
  - inversion Hts as [|? ? Ht Hts']; subst.
    cbn [fmap list_fmap serve length cachedOutcomes].
    change (list_fmap _ _ ?f ts) with (f <$> ts).
    rewrite (rateLimiter_cached _ _ _ _ _ _ Hget Hc Ht).
    cbn [cache_of remote_of result_of decide_request].
    rewrite (IH _ (c + 1)); [| by rewrite lookup_insert_eq | done].
    rewrite insert_insert_eq.
    do 3 f_equal. f_equal. lia.
Qed.

(** The first request of a client on a fresh store. *)
Lemma rateLimiter_first req t0 :
  method req = "GET" →
  rateLimiter (H := mockRemote) req t0 ∅ Scenario.freshMock
  = decide_request t0 1 300
      {[ rateKey req := {| count := 1; expires := t0 + 300000 |} ]}
      {| data := <[expiryKey (rateKey req) := VStr (Number_toString (t0 + 300000))]>
                   (<[rateKey req := VStr "1"]> ∅);
         timers := [(t0 + 300000, rateKey req)] |}.
Proof.
  intros Hget. unfold rateLimiter. rewrite Hget, lookup_empty. simpl.
  unfold viaRemote, pipelineIncrTtl, mockRemote, runTimers, incr. simpl.
  unfold read at 1. rewrite lookup_empty. simpl.
  change (windowMs / 1000) with 300.
  unfold expire. cbn [data timers]. rewrite read_insert_eq. simpl.
  reflexivity.
Qed.

Lemma read_delete_eq (st : storage) k : read (delete k st) k = VUndef.
Proof. unfold read. by rewrite lookup_delete_eq. Qed.

Lemma read_delete_ne (st : storage) k k' :
  k ≠ k' → read (delete k st) k' = read st k'.
Proof. intros. unfold read. by rewrite lookup_delete_ne. Qed.

(** The first request after the window of a client has run out, whatever
    count the cache had reached: the scheduled callback has deleted the
    counter, which starts again at 1. *)
Lemma rateLimiter_after_window req t0 t' c text :
  method req = "GET" →
  t0 + 300000 ≤ t' →
  let r :=
    rateLimiter (H := mockRemote) req t'
      {[ rateKey req := {| count := c; expires := t0 + 300000 |} ]}
      {| data := <[expiryKey (rateKey req) := VStr text]>
                   (<[rateKey req := VStr "1"]> ∅);
         timers := [(t0 + 300000, rateKey req)] |} in
  result_of r = Next
  ∧ mirrorCount (cache_of r) (rateKey req) = Some 1
  ∧ read (data (remote_of r)) (rateKey req) = VStr "1".
Proof.
  intros Hget Hlate. unfold rateLimiter. rewrite Hget, lookup_singleton_eq.
  cbn [negb String.eqb expires]. simpl (negb _).
  replace (t' <? t0 + 300000) with false by lia. cbv iota.
  unfold viaRemote, pipelineIncrTtl, mockRemote, runTimers.
  cbn [data timers fold_left fst snd].
  replace (t0 + 300000 <=? t') with true by lia.
  unfold autoExpire.
  rewrite read_insert_ne by (intros E; by apply (key_ne_expiryKey (rateKey req))).
  rewrite read_insert_eq. cbn [is_undefined].
  set (st := delete _ _).
  assert (read st (rateKey req) = VUndef) as Hk.
  { subst st. rewrite read_delete_ne
      by (intros E; by apply (key_ne_expiryKey (rateKey req))).
    apply read_delete_eq. }
  assert (read st (expiryKey (rateKey req)) = VUndef) as Hek.
  { subst st. apply read_delete_eq. }
  unfold incr. rewrite Hk. cbn [is_undefined].
  unfold ttl. rewrite read_insert_ne by apply key_ne_expiryKey.
  rewrite Hek. cbn [is_undefined].
  change ((1 =? 1) || (-2 <? 0)) with true. cbv iota.
  unfold remoteExpire, expire. cbn [data timers].
  rewrite read_insert_eq. cbn [is_undefined].
  unfold decide_request, mirrorCount.
  cbn [result_of cache_of remote_of data].
  rewrite lookup_insert_eq.
  rewrite read_insert_ne by (intros E; by apply (key_ne_expiryKey (rateKey req))).
  rewrite read_insert_eq. done.
Qed.

(** C5. A client that sends GET requests to a fresh service: the first
    request at [t0] opens the window; with the next 100 requests inside the
    window, the first 100 requests in all are admitted and the 101st is
    rejected with status 429; the next request once the window has run out
    is admitted, and both the cache and the store count 1 again. *)
Theorem rate_limit_window req t0 ts t' :
  method req = "GET" →
  length ts = 100%nat →
  Forall (fun t => t < t0 + 300000) ts →
  t0 + 300000 ≤ t' →
  ∃ cache remote,
    serve (H := mockRemote) ((fun t => (req, t)) <$> (t0 :: ts)) ∅
      Scenario.freshMock
    = (replicate 100 Next ++ [TooManyRequests], cache, remote)
    ∧ result_of (rateLimiter (H := mockRemote) req t' cache remote) = Next
    ∧ mirrorCount (cache_of (rateLimiter (H := mockRemote) req t' cache remote))
        (rateKey req) = Some 1
    ∧ read (data (remote_of (rateLimiter (H := mockRemote) req t' cache remote)))
        (rateKey req) = VStr "1".
Proof.
  intros Hget Hlen Hts Hlate.
  cbn [fmap list_fmap serve].
  change (list_fmap _ _ ?f ts) with (f <$> ts).
  rewrite (rateLimiter_first _ _ Hget).
  cbn [cache_of remote_of result_of decide_request].
  rewrite (serve_cached (H0 := mockRemote) req ts _ _ 1 (t0 + 300000) Hget);
    [| apply lookup_singleton_eq | done].
  rewrite Hlen. rewrite insert_singleton_eq.
  eexists _, _. split; [reflexivity|].
  by apply rateLimiter_after_window.
Qed.

End Window.

Lemma rate_limit_window_witness :
  ∃ cache remote,
    RateLimit.serve (H := mockRemote (H := Tiny.runtime))
      ((fun t => (Scenario.getFrom "10.0.0.1", t))
         <$> (0 :: ((fun i => Z.of_nat i * 1000) <$> seq 1 100)))
      ∅ Scenario.freshMock
    = (replicate 100 RateLimit.Next ++ [RateLimit.TooManyRequests],
       cache, remote)
    ∧ RateLimit.result_of
        (RateLimit.rateLimiter (H := mockRemote (H := Tiny.runtime))
           (Scenario.getFrom "10.0.0.1") 300000 cache remote)
      = RateLimit.Next
    ∧ RateLimit.mirrorCount
        (RateLimit.cache_of
           (RateLimit.rateLimiter (H := mockRemote (H := Tiny.runtime))
              (Scenario.getFrom "10.0.0.1") 300000 cache remote))
        (RateLimit.rateKey (Scenario.getFrom "10.0.0.1")) = Some 1
    ∧ RedisMock.read
        (data
           (RateLimit.remote_of
              (RateLimit.rateLimiter (H := mockRemote (H := Tiny.runtime))
                 (Scenario.getFrom "10.0.0.1") 300000 cache remote)))
        (RateLimit.rateKey (Scenario.getFrom "10.0.0.1")) = VStr "1".
Proof.
  apply (@rate_limit_window Tiny.runtime (Scenario.getFrom "10.0.0.1") 0
           ((fun i => Z.of_nat i * 1000) <$> seq 1 100) 300000).
  - reflexivity.
  - reflexivity.
  - apply Forall_forall. intros t Ht.
    apply list_elem_of_fmap in Ht as (i & -> & Hi).
    apply elem_of_seq in Hi. lia.
  - lia.
Defined.

Section Mirror.
Context `{Runtime}.
Import RedisMock RedisMockFacts RedisMockTimed RateLimit.

(** C9, as the code has it. In a window opened by a client on a fresh
    store, only the first request reaches the store: after that request and
    any further GET requests inside the window, the cache counts all of
    them while the counter in the store still reads 1. *)
Theorem mirror_counts_alone req t0 ts :
  method req = "GET" →
  Forall (fun t => t < t0 + 300000) ts →
  ∃ outs cache remote,
    serve (H := mockRemote) ((fun t => (req, t)) <$> (t0 :: ts)) ∅
      Scenario.freshMock
    = (outs, cache, remote)
    ∧ mirrorCount cache (rateKey req) = Some (1 + Z.of_nat (length ts))
    ∧ read (data remote) (rateKey req) = VStr "1".
Proof.
  intros Hget Hts.
  cbn [fmap list_fmap serve].
  change (list_fmap _ _ ?f ts) with (f <$> ts).
  rewrite (rateLimiter_first _ _ Hget).
  cbn [cache_of remote_of result_of decide_request].
  rewrite (serve_cached (H0 := mockRemote) req ts _ _ 1 (t0 + 300000) Hget);
    [| apply lookup_singleton_eq | done].
  eexists _, _, _. split; [reflexivity|]. split.
  - unfold mirrorCount. by rewrite lookup_insert_eq.
  - cbn [data].
    rewrite read_insert_ne by (intros E; by apply (key_ne_expiryKey (rateKey req))).
    by rewrite read_insert_eq.
Qed.

End Mirror.

Lemma mirror_counts_alone_witness :
  ∃ outs cache remote,
    RateLimit.serve (H := mockRemote (H := Tiny.runtime))
      ((fun t => (Scenario.getFrom "10.0.0.1", t)) <$> (0 :: [1; 2])) ∅
      Scenario.freshMock
    = (outs, cache, remote)
    ∧ RateLimit.mirrorCount cache
        (RateLimit.rateKey (Scenario.getFrom "10.0.0.1"))
      = Some (1 + Z.of_nat (length [1; 2]))
    ∧ RedisMock.read (data remote)
        (RateLimit.rateKey (Scenario.getFrom "10.0.0.1")) = VStr "1".
Proof.
  apply (@mirror_counts_alone Tiny.runtime (Scenario.getFrom "10.0.0.1") 0
           [1; 2]).
  - reflexivity.
  - repeat constructor.
Defined.

(** C9, as stated, fails: after three admitted requests of one client in
    one window the cache counts 3 and the store 1. *)
Lemma mirror_lags_by_two :
  ∃ cache remote,
    RateLimit.serve (H := mockRemote (H := Tiny.runtime))
      [(Scenario.getFrom "10.0.0.1", 0); (Scenario.getFrom "10.0.0.1", 1);
       (Scenario.getFrom "10.0.0.1", 2)] ∅ Scenario.freshMock
    = ([RateLimit.Next; RateLimit.Next; RateLimit.Next], cache, remote)
    ∧ RateLimit.mirrorCount cache "ratelimit:10.0.0.1" = Some 3
    ∧ RateLimit.remoteCount (H := Tiny.runtime) remote "ratelimit:10.0.0.1"
      = Some 1
    ∧ ¬ RateLimit.lagAtMostOne (H := Tiny.runtime) cache remote
          "ratelimit:10.0.0.1".
Proof.
  eexists _, _. split; [vm_compute; reflexivity|].
  split; [vm_compute; reflexivity|].
  split; [vm_compute; reflexivity|].
  vm_compute. intros Hle. apply Hle. reflexivity.
Qed.

(** ** Objects *)

Lemma assoc_set_prop_eq k v fs : assoc k (set_prop k v fs) = Some v.
Proof.
  induction fs as [|[k' v'] fs IH]; simpl.
  - by rewrite String.eqb_refl.
  - destruct (String.eqb k k') eqn:E; simpl.
    + by rewrite String.eqb_refl.
    + by rewrite E.
Qed.

Lemma assoc_set_prop_ne k k' v fs :
  k ≠ k' → assoc k' (set_prop k v fs) = assoc k' fs.
Proof.
  intros Hne. induction fs as [|[k0 v0] fs IH]; simpl.
  - by rewrite (proj2 (String.eqb_neq k' k)).
  - destruct (String.eqb k k0) eqn:E; simpl.
    + apply String.eqb_eq in E as <-.
      by rewrite (proj2 (String.eqb_neq k' k)).
    + by rewrite IH.
Qed.

(** ** Rendering *)

Section RenderFacts.
Context `{Runtime} `{Packages}.





(** The html mode hands the three fields of a parsed object on as they are
    stored. *)
Lemma htmlItem_keeps_markup now itemJson fs item field :
  JSON_parse itemJson = Some (VObj fs) →
  htmlItem now itemJson = Some item →
  field ≠ "date" → field ≠ "published" →
  getprop item field = getprop (VObj fs) field.
Proof.
  intros Hp. unfold htmlItem. rewrite Hp. simpl.
  intros [= <-] Hd Hpub. simpl.
  by rewrite !assoc_set_prop_ne.
Qed.

Lemma rawItem_without_clock now itemJson :
  usesClock itemJson = false → rawItem now itemJson = rawItem 0 itemJson.
Proof.
  unfold usesClock, rawItem.
  destruct (JSON_parse itemJson) as [p|]; [simpl|done].
  unfold getprop_opt.
  destruct (getprop p "date") as [date|]; [simpl|done].
  destruct (getprop p "published") as [published|]; [simpl|done].
  destruct (getprop p "title" ≫= _) as [t|]; [simpl|done].
  destruct (getprop p "description" ≫= _) as [d|]; [simpl|done].
  destruct (getprop p "content" ≫= _) as [c|]; [simpl|done].
  intros Hdate. unfold dateOrNow.
  by destruct (truthy date).
Qed.

(** C6, as the code has it. For the raw format, when every stored string
    parses, renders without an exception and carries a date, the output of
    [generateFeed] is the same at any two clock readings. *)
Theorem generateFeed_raw_deterministic now1 now2 items feedConfig :
  Forall (fun itemJson => usesClock itemJson = false) items →
  generateFeed now1 items feedConfig raw = generateFeed now2 items feedConfig raw.
Proof.
  intros Hitems. unfold generateFeed.
  assert (formatItems now1 items api_raw = formatItems now2 items api_raw) as ->.
  { unfold formatItems. apply list_fmap_ext. intros i itemJson Hi.
    pose proof (proj1 (Forall_lookup _ _) Hitems i itemJson Hi) as Hclock.
    simpl in Hclock.
    rewrite (rawItem_without_clock now1), (rawItem_without_clock now2) by done.
    destruct (rawItem 0 itemJson) eqn:Hraw; [done|].
    exfalso. revert Hclock. unfold usesClock. rewrite Hraw.
    by destruct (JSON_parse itemJson). }
  done.
Qed.

End RenderFacts.




(** The same stored string keeps its tags in the html mode and loses them
    in the raw mode. *)
Example markedUp_in_both_modes :
  (fun item => (getprop_opt item "title", getprop_opt item "content"))
    <$> @formatItems Tiny.runtime Tiny.packages 5 [Scenario.markedUp] api_html
  = [(VStr "<b>T</b>", VStr "<p>hi</p>")]
  ∧ (fun item => (getprop_opt item "title", getprop_opt item "content"))
      <$> @formatItems Tiny.runtime Tiny.packages 5 [Scenario.markedUp] api_raw
    = [(VStr "T", VStr "hi")].
Proof. vm_compute. done. Qed.

Lemma generateFeed_raw_deterministic_witness :
  @generateFeed Tiny.runtime Tiny.packages 0 [Scenario.markedUp]
    Scenario.config2 raw
  = @generateFeed Tiny.runtime Tiny.packages 1000 [Scenario.markedUp]
      Scenario.config2 raw.
Proof.
  apply (@generateFeed_raw_deterministic Tiny.runtime Tiny.packages 0 1000
           [Scenario.markedUp] Scenario.config2).
  repeat constructor.
Defined.

(** C6, as stated, fails: the same stored string, configuration and format
    give two different texts at two clock readings, because an item without
    a date is stamped with the time of the call. *)
Lemma generateFeed_reads_clock :
  @generateFeed Tiny.runtime Tiny.packages 0 [Scenario.undated]
    Scenario.config2 raw
  ≠ @generateFeed Tiny.runtime Tiny.packages 1000 [Scenario.undated]
      Scenario.config2 raw.
Proof. vm_compute. intros E. discriminate E. Qed.

Section FeedDocument.
Context `{Runtime} `{Packages}.

(** For rss, atom and json the document handed to the serialiser carries
    the time of the call as its [updated] stamp. *)
Lemma feedOptions_carry_clock now feedConfig options :
  feedOptions now feedConfig = Some options →
  getprop options "updated" = Some (VDate (Some now)).
Proof.
  unfold feedOptions.
  repeat (match goal with
          | |- context [getprop feedConfig ?k] =>
              destruct (getprop feedConfig k); [simpl|done]
          end).
  by intros [= <-].
Qed.

End FeedDocument.

(** ** The add-item endpoint *)

Section IngestFacts.
Context `{Runtime} `{Packages}.
Import RedisMock RedisMockFacts.

Lemma slice_head {A} (x : A) l e :
  e = None ∨ (∃ n, e = Some (Some n) ∧ 1 ≤ n) →
  head (slice (x :: l) (Some 0) e) = Some x.
Proof.
  intros He. unfold slice, rel_index, to_integer. simpl default.
  replace (0 <? 0) with false by lia.
  rewrite (Z.min_l 0) by lia. change (Z.to_nat 0) with 0%nat. rewrite drop_0.
  rewrite Z.sub_0_r.
  set (len := Z.of_nat (length (x :: l))).
  assert (1 ≤ len) as Hlen by (subst len; simpl; lia).
  set (final := match e with
                | Some e0 => _
                | None => len
                end).
  assert (1 ≤ final) as Hfinal.
  { subst final. destruct He as [->|(n & -> & Hn)]; [done|]. simpl.
    replace (n <? 0) with false by lia. lia. }
  destruct (Z.to_nat final) as [|k] eqn:Hk; [lia|]. done.
Qed.

Lemma array_at_ltrim st k l a b :
  array_at st k = Some l →
  ∃ e, array_at (ltrim st k a b) k = Some (slice l a e)
       ∧ (e = None ∨ ∃ n, e = Some (Some n) ∧ 1 ≤ n).
Proof.
  intros Hl. unfold ltrim. rewrite Hl.
  eexists. split.
  - unfold array_at. by rewrite read_insert_eq.
  - destruct b as [x|]; simpl.
    + destruct (x <? 0) eqn:Hx.
      * by left.
      * right. rewrite decide_False by (intros [=]; lia).
        exists (x + 1). split; [done|lia].
    + by left.
Qed.

(** Whatever the bound, a successful [addItem] leaves the new item at the
    head of the stored list. *)
Lemma addItem_ok_head feedId item st st' :
  addItem feedId item st = (Ok tt, st') →
  head (ledger st' feedId) = Some (VStr (JSON_stringify item)).
Proof.
  unfold addItem, addItem_try.
  destruct (feedExists st feedId); simpl; [|discriminate].
  destruct (getprop item "guid") as [guid|]; [|discriminate].
  destruct (if truthy guid then itemExists st feedId guid else Ok false)
    as [[|]|e]; [discriminate| |destruct e; discriminate].
  destruct (getFeedConfig st feedId) as [config|e]; [|destruct e; discriminate].
  fold (afterTrim feedId item guid (maxItems config) st).
  assert (head (ledger (afterTrim feedId item guid (maxItems config) st) feedId)
          = Some (VStr (JSON_stringify item))) as Hhead.
  { unfold ledger, afterTrim.
    set (st2 := if truthy guid then _ else _).
    assert (array_at st2 (itemsKey feedId)
            = Some (VStr (JSON_stringify item) :: as_array st (itemsKey feedId)))
      as Hst2.
    { subst st2. destruct (truthy guid).
      - rewrite (array_at_read (lpush st (itemsKey feedId) (JSON_stringify item))).
        + apply array_at_lpush.
        + apply read_sadd_ne. intros E. by apply (itemsKey_ne_guidsKey feedId).
      - apply array_at_lpush. }
    destruct (array_at_ltrim _ _ _ (Some 0) (num_sub (maxItems config) (Some 1))
                Hst2) as (e & -> & He).
    simpl. by apply slice_head. }
  destruct (num_gt _ _); intros [= <-]; [|done].
  unfold ledger in *.
  rewrite (array_at_read (afterTrim feedId item guid (maxItems config) st));
    [done|].
  apply read_cleanupGuids_ne. intros E. by apply (itemsKey_ne_guidsKey feedId).
Qed.

Lemma assoc_spreadIf_ne cond k k' v fs :
  k ≠ k' → assoc k' (spreadIf cond k v fs) = assoc k' fs.
Proof.
  intros. unfold spreadIf. destruct (truthy cond); [|done].
  by apply assoc_set_prop_ne.
Qed.

(** The three text fields of [completeItem] are what the sanitizer returns
    for the corresponding fields of the request. *)
Lemma completeItemOf_sanitized env inputItem completeItem :
  completeItemOf env inputItem = Some completeItem →
  ∃ title description content,
    getprop completeItem "title" = Some (VStr title)
    ∧ sanitize (or_else (getprop_opt inputItem "title") (VStr "Untitled"))
      = Some title
    ∧ getprop completeItem "description" = Some (VStr description)
    ∧ sanitize (or_else (getprop_opt inputItem "description") (VStr ""))
      = Some description
    ∧ getprop completeItem "content" = Some (VStr content)
    ∧ sanitize (or_else (getprop_opt inputItem "content")
                  (or_else (getprop_opt inputItem "description") (VStr "")))
      = Some content.
Proof.
  unfold completeItemOf, getprop_opt.
  destruct inputItem; try done; simpl.
  all: repeat (match goal with
          | |- context [sanitize ?x] =>
              let E := fresh "E" in
              destruct (sanitize x) eqn:E; [simpl|done]
          end).
  all: intros [= <-]; eexists _, _, _.
  all: unfold getprop; rewrite !assoc_spreadIf_ne by done; simpl.
  all: repeat split; done.
Qed.

End IngestFacts.

Section Ingest.
Context `{Runtime} `{Packages}.

(** C10, as the code has it. When the add-item endpoint accepts a request
    (status 200), the JSON text of the completed item is at the head of the
    feed's stored list, and the title, description and content of that item
    are the sanitizer's output for the request's fields, under options that
    do not allow the script tag and allow only the http, https and mailto
    schemes on href and src. *)
Theorem handleAddItem_stores_sanitized env feedId text st :
  status (fst (handleAddItem env feedId text st)) = 200 →
  ∃ inputItem completeItem title description content,
    (JSON_parse text ≫= mapPublishedAt) = Some inputItem
    ∧ head (ledger (snd (handleAddItem env feedId text st)) feedId)
      = Some (VStr (JSON_stringify completeItem))
    ∧ getprop completeItem "title" = Some (VStr title)
    ∧ sanitize (or_else (getprop_opt inputItem "title") (VStr "Untitled"))
      = Some title
    ∧ getprop completeItem "description" = Some (VStr description)
    ∧ sanitize (or_else (getprop_opt inputItem "description") (VStr ""))
      = Some description
    ∧ getprop completeItem "content" = Some (VStr content)
    ∧ sanitize (or_else (getprop_opt inputItem "content")
                  (or_else (getprop_opt inputItem "description") (VStr "")))
      = Some content
    ∧ ("script" ∉ allowedTags sanitizeConfig)
    ∧ allowedSchemes sanitizeConfig = ["http"; "https"; "mailto"]
    ∧ allowedSchemesAppliedToAttributes sanitizeConfig = ["href"; "src"].
Proof.
  unfold handleAddItem.
  destruct (String.eqb feedId ""); [discriminate|].
  destruct (JSON_parse text) as [input0|]; [simpl|discriminate].
  destruct (feedExists st feedId); [simpl|discriminate].
  destruct (mapPublishedAt input0) as [inputItem|]; [|discriminate].
  destruct (negb (truthy (getprop_opt inputItem "content")) && _);
    [discriminate|].
  destruct (negb (truthy (getprop_opt inputItem "link"))); [discriminate|].
  destruct (completeItemOf env inputItem) as [completeItem|] eqn:Hitem;
    [|discriminate].
  destruct (addItem feedId completeItem st) as [[[]|e] st'] eqn:Hadd;
    [|destruct e; discriminate].
  intros _. simpl.
  destruct (completeItemOf_sanitized _ _ _ Hitem)
    as (title & description & content & Ht & Hst & Hd & Hsd & Hc & Hsc).
  exists inputItem, completeItem, title, description, content.
  repeat split; try done.
  - by apply (addItem_ok_head _ _ st).
  - intros Hin%list_elem_of_In. simpl in Hin. intuition discriminate.
Qed.

End Ingest.

Lemma handleAddItem_stores_sanitized_witness :
  ∃ inputItem completeItem title description content,
    (JSON_parse (Runtime := Tiny.runtime) Scenario.friendly ≫= mapPublishedAt)
    = Some inputItem
    ∧ head (ledger
              (snd (@handleAddItem Tiny.runtime Tiny.packages Scenario.ambient0
                      "f1" Scenario.friendly Scenario.store0)) "f1")
      = Some (VStr (JSON_stringify (Runtime := Tiny.runtime) completeItem))
    ∧ getprop completeItem "title" = Some (VStr title)
    ∧ @sanitize Tiny.packages
        (or_else (getprop_opt inputItem "title") (VStr "Untitled"))
      = Some title
    ∧ getprop completeItem "description" = Some (VStr description)
    ∧ @sanitize Tiny.packages
        (or_else (getprop_opt inputItem "description") (VStr ""))
      = Some description
    ∧ getprop completeItem "content" = Some (VStr content)
    ∧ @sanitize Tiny.packages
        (or_else (getprop_opt inputItem "content")
           (or_else (getprop_opt inputItem "description") (VStr "")))
      = Some content
    ∧ ("script" ∉ allowedTags sanitizeConfig)
    ∧ allowedSchemes sanitizeConfig = ["http"; "https"; "mailto"]
    ∧ allowedSchemesAppliedToAttributes sanitizeConfig = ["href"; "src"].
Proof.
  apply (@handleAddItem_stores_sanitized Tiny.runtime Tiny.packages
           Scenario.ambient0 "f1" Scenario.friendly Scenario.store0).
  vm_compute. reflexivity.
Defined.

(** C10, as stated, fails for the fields that are not sanitized: a request
    whose link has the javascript scheme and whose copyright holds a script
    element is accepted, and both are stored as received. *)
Lemma handleAddItem_stores_other_fields_as_received :
  status (fst (@handleAddItem Tiny.runtime Tiny.packages Scenario.ambient0
                 "f1" Scenario.hostile Scenario.store0)) = 200
  ∧ ∃ stored item,
      head (ledger
              (snd (@handleAddItem Tiny.runtime Tiny.packages Scenario.ambient0
                      "f1" Scenario.hostile Scenario.store0)) "f1")
      = Some (VStr stored)
      ∧ Tiny.parse stored = Some item
      ∧ getprop item "link" = Some (VStr "javascript:alert(1)")
      ∧ getprop item "guid" = Some (VStr "javascript:alert(1)")
      ∧ getprop item "copyright" = Some (VStr "<script>alert(1)</script>")
      ∧ hasTag "<script>alert(1)</script>" = true.
Proof.
  split; [vm_compute; reflexivity|].
  eexists _, _. split; [vm_compute; reflexivity|].
  split; [vm_compute; reflexivity|].
  vm_compute. done.
Qed.

(** * Further properties *)

Set Warnings "-clear-no-such-hyp".

(** ** Keys of different feeds *)

Lemma append_same_length a b s t :
  String.length s = String.length t → a +:+ s = b +:+ t → a = b ∧ s = t.
Proof.
  intros Hlen. revert b. induction a as [|c a IH]; intros [|d b] E; simpl in E.
  - done.
  - apply (f_equal String.length) in E. simpl in E.
    rewrite !append_length in E. simpl in E. lia.
  - apply (f_equal String.length) in E. simpl in E.
    rewrite !append_length in E. simpl in E. lia.
  - injection E as -> E. destruct (IH _ E) as [-> ->]. done.
Qed.

Lemma itemsKey_inj f g : itemsKey f = itemsKey g → f = g.
Proof.
  unfold itemsKey. intros E. apply (inj (String.app "feed:")) in E.
  by apply append_same_length in E as [-> _].
Qed.

Lemma guidsKey_inj f g : guidsKey f = guidsKey g → f = g.
Proof.
  unfold guidsKey. intros E. apply (inj (String.app "feed:")) in E.
  by apply append_same_length in E as [-> _].
Qed.

Lemma itemsKey_ne_guidsKey_any f g : itemsKey f ≠ guidsKey g.
Proof.
  unfold itemsKey, guidsKey. intros E. apply (inj (String.app "feed:")) in E.
  by apply append_same_length in E as [_ [=]].
Qed.

Section LedgerMore.
Context `{Runtime}.
Import RedisMock RedisMockFacts.

Lemma read_afterTrim_ne feedId item guid m st k :
  k ≠ itemsKey feedId → k ≠ guidsKey feedId →
  read (afterTrim feedId item guid m st) k = read st k.
Proof.
  intros Hi Hg. unfold afterTrim.
  rewrite read_ltrim_ne by done.
  destruct (truthy guid).
  - rewrite read_sadd_ne by done. by apply read_lpush_ne.
  - by apply read_lpush_ne.
Qed.

(** [addItem] writes under the feed's items key and guids key only. *)
Lemma addItem_frame feedId item st k :
  k ≠ itemsKey feedId → k ≠ guidsKey feedId →
  read (snd (addItem feedId item st)) k = read st k.
Proof.
  intros Hi Hg.
  assert (read (snd (addItem_try feedId item st)) k = read st k) as Htry.
  { unfold addItem_try.
    destruct (feedExists st feedId); simpl; [|done].
    destruct (getprop item "guid") as [guid|]; [|done].
    destruct (if truthy guid then itemExists st feedId guid else Ok false)
      as [[|]|e]; [done| |done].
    destruct (getFeedConfig st feedId) as [config|e]; [|done].
    fold (afterTrim feedId item guid (maxItems config) st).
    destruct (num_gt _ _); simpl.
    - rewrite read_cleanupGuids_ne by done. by apply read_afterTrim_ne.
    - by apply read_afterTrim_ne. }
  unfold addItem. destruct (addItem_try feedId item st) as [[u|e] st'].
  - done.
  - by destruct e.
Qed.

(** X1. Whatever its outcome, [addItem] on one feed leaves the stored list
    and the GUID index of every other feed as they were; the configuration
    record of another feed is left as it was too, unless that feed's id is
    this feed's id followed by [:items] or [:guids]. *)
Theorem addItem_other_feed_untouched feedId other item st :
  feedId ≠ other →
  ledger (snd (addItem feedId item st)) other = ledger st other
  ∧ (∀ g, inGuidIndex (snd (addItem feedId item st)) other g
          = inGuidIndex st other g)
  ∧ (other ≠ feedId +:+ ":items" → other ≠ feedId +:+ ":guids" →
     getFeedConfig (snd (addItem feedId item st)) other
     = getFeedConfig st other).
Proof.
  intros Hne. split; [|split].
  - unfold ledger. f_equal. apply array_at_read, addItem_frame.
    + intros E. by apply itemsKey_inj in E.
    + apply itemsKey_ne_guidsKey_any.
  - intros g. unfold inGuidIndex, sismember.
    rewrite (array_at_read st); [done|]. apply addItem_frame.
    + intros E. by apply (itemsKey_ne_guidsKey_any feedId other).
    + intros E. by apply guidsKey_inj in E.
  - intros Hi Hg. apply getFeedConfig_read, addItem_frame.
    + unfold configKey, itemsKey. intros E.
      by apply (inj (String.app "feed:")) in E.
    + unfold configKey, guidsKey. intros E.
      by apply (inj (String.app "feed:")) in E.
Qed.


Lemma same_value_sym a b : same_value a b = same_value b a.
Proof.
  destruct a, b; simpl; try done.
  - by destruct b, b0.
  - apply Z.eqb_sym.
  - apply String.eqb_sym.
Qed.


End LedgerMore.

Lemma addItem_other_feed_untouched_witness :
  ledger (snd (@addItem Tiny.runtime "f2" Scenario.itemA Cases.twoFeeds)) "f1"
  = ledger Cases.twoFeeds "f1"
  ∧ (∀ g, inGuidIndex
            (snd (@addItem Tiny.runtime "f2" Scenario.itemA Cases.twoFeeds))
            "f1" g
          = inGuidIndex Cases.twoFeeds "f1" g)
  ∧ ("f1" ≠ "f2" +:+ ":items" → "f1" ≠ "f2" +:+ ":guids" →
     @getFeedConfig Tiny.runtime
       (snd (@addItem Tiny.runtime "f2" Scenario.itemA Cases.twoFeeds)) "f1"
     = @getFeedConfig Tiny.runtime Cases.twoFeeds "f1").
Proof.
  apply (@addItem_other_feed_untouched Tiny.runtime "f2" "f1" Scenario.itemA
           Cases.twoFeeds).
  discriminate.
Defined.


(** ** The registry and the ledger, operation by operation *)

Section RegistryMore.
Context `{Runtime}.
Import RedisMock RedisMockFacts.

Lemma read_del_eq (st : storage) k : read (del st k) k = VUndef.
Proof.
  unfold del. destruct (is_undefined (read st k)) eqn:E.
  - by destruct (read st k).
  - unfold read. by rewrite lookup_delete_eq.
Qed.

Lemma read_del_ne (st : storage) k k' : k ≠ k' → read (del st k) k' = read st k'.
Proof.
  intros. unfold del. destruct (is_undefined (read st k)); [done|].
  unfold read. by rewrite lookup_delete_ne.
Qed.

Lemma feedExists_false st feedId :
  feedExists st feedId = false ↔ read st (configKey feedId) = VUndef.
Proof.
  unfold feedExists, exists_.
  destruct (read st (configKey feedId)); simpl; split; done.
Qed.

(** X3. On a feed that does not exist, every operation of the registry and
    the ledger fails with FeedNotFoundError for that id, and those that
    write leave the store as it is. *)
Theorem missing_feed_not_found now useRedisMock feedId item guid config st :
  feedExists st feedId = false →
  getFeedConfig st feedId = Throw (FeedNotFoundError feedId)
  ∧ getItems useRedisMock st feedId = Throw (FeedNotFoundError feedId)
  ∧ itemExists st feedId guid = Throw (FeedNotFoundError feedId)
  ∧ addItem feedId item st = (Throw (FeedNotFoundError feedId), st)
  ∧ clearItems feedId st = (Throw (FeedNotFoundError feedId), st)
  ∧ updateFeedConfig now feedId config st
    = (Throw (FeedNotFoundError feedId), st)
  ∧ deleteFeed feedId st = (Throw (FeedNotFoundError feedId), st).
Proof.
  intros Hex. pose proof (proj1 (feedExists_false _ _) Hex) as Hread.
  unfold getFeedConfig, getItems, itemExists, addItem, addItem_try,
    clearItems, updateFeedConfig, deleteFeed, get.
  rewrite Hex, Hread. simpl. done.
Qed.

Lemma getFeedConfig_ok_exists st feedId config :
  getFeedConfig st feedId = Ok config → feedExists st feedId = true.
Proof.
  unfold getFeedConfig, get, feedExists, exists_.
  by destruct (read st (configKey feedId)).
Qed.

(** X4. [clearItems] on a feed with a readable configuration succeeds and
    leaves the feed in place with the same configuration, an empty stored
    list, an empty GUID index, and [getItems] returning the empty list. *)
Theorem clearItems_empties_feed useRedisMock feedId st config :
  getFeedConfig st feedId = Ok config →
  fst (clearItems feedId st) = Ok tt
  ∧ getFeedConfig (snd (clearItems feedId st)) feedId = Ok config
  ∧ ledger (snd (clearItems feedId st)) feedId = []
  ∧ (∀ g, inGuidIndex (snd (clearItems feedId st)) feedId g = false)
  ∧ getItems useRedisMock (snd (clearItems feedId st)) feedId = Ok [].
Proof.
  intros Hcfg. pose proof (getFeedConfig_ok_exists _ _ _ Hcfg) as Hex.
  unfold clearItems. rewrite Hex. simpl.
  set (st' := del (del st (itemsKey feedId)) (guidsKey feedId)).
  assert (read st' (itemsKey feedId) = VUndef) as Hitems.
  { subst st'. rewrite read_del_ne by (intros E; by apply (itemsKey_ne_guidsKey feedId)).
    apply read_del_eq. }
  assert (read st' (guidsKey feedId) = VUndef) as Hguids
    by apply read_del_eq.
  assert (read st' (configKey feedId) = read st (configKey feedId)) as Hconfig.
  { subst st'.
    rewrite read_del_ne by (intros E; by apply (configKey_ne_guidsKey feedId)).
    apply read_del_ne. intros E. by apply (configKey_ne_itemsKey feedId). }
  assert (getFeedConfig st' feedId = Ok config) as Hcfg'.
  { rewrite <- Hcfg. by apply getFeedConfig_read. }
  split; [done|]. split; [done|]. split; [|split].
  - unfold ledger, array_at. by rewrite Hitems.
  - intros g. unfold inGuidIndex, sismember, array_at. by rewrite Hguids.
  - unfold getItems, getStorageState, lrange, array_at.
    rewrite (getFeedConfig_ok_exists _ _ _ Hcfg'), Hcfg', Hitems. simpl.
    by destruct useRedisMock.
Qed.

(** X5. For a feed with a positive bound [m], [getItems] returns the first
    [m] stored entries; when the environment selects the in-memory store it
    returns the stored list in full instead, whatever the bound. *)
Theorem getItems_returns_ledger useRedisMock feedId st config m :
  getFeedConfig st feedId = Ok config →
  maxItems config = Some m → 0 < m →
  getItems useRedisMock st feedId
  = Ok (if useRedisMock then ledger st feedId
        else take (Z.to_nat m) (ledger st feedId)).
Proof.
  intros Hcfg Hmax Hm.
  unfold getItems, getStorageState, ledger, lrange.
  rewrite (getFeedConfig_ok_exists _ _ _ Hcfg), Hcfg, Hmax. simpl.
  destruct (array_at st (itemsKey feedId)) as [l|] eqn:Hl; simpl.
  - destruct useRedisMock; [done|].
    rewrite decide_False by (intros [=]; lia).
    replace (m - 1 + 1) with m by lia. by rewrite slice_keep_first.
  - destruct useRedisMock; [done|]. by rewrite take_nil.
Qed.

(** X6. [deleteFeed] on an existing feed succeeds; afterwards the feed does
    not exist, its stored list and GUID index are empty, a further
    [addItem] fails with FeedNotFoundError, and every key other than the
    feed's three keys reads as before. *)
Theorem deleteFeed_removes_feed feedId st :
  feedExists st feedId = true →
  fst (deleteFeed feedId st) = Ok tt
  ∧ feedExists (snd (deleteFeed feedId st)) feedId = false
  ∧ ledger (snd (deleteFeed feedId st)) feedId = []
  ∧ (∀ g, inGuidIndex (snd (deleteFeed feedId st)) feedId g = false)
  ∧ (∀ item, addItem feedId item (snd (deleteFeed feedId st))
             = (Throw (FeedNotFoundError feedId), snd (deleteFeed feedId st)))
  ∧ (∀ k, k ≠ configKey feedId → k ≠ itemsKey feedId → k ≠ guidsKey feedId →
          read (snd (deleteFeed feedId st)) k = read st k).
Proof.
  intros Hex. unfold deleteFeed. rewrite Hex. simpl.
  set (st' := del (del (del st _) _) _).
  assert (read st' (configKey feedId) = VUndef) as Hconfig.
  { subst st'.
    rewrite read_del_ne by (intros E; by apply (configKey_ne_guidsKey feedId)).
    rewrite read_del_ne by (intros E; by apply (configKey_ne_itemsKey feedId)).
    apply read_del_eq. }
  assert (read st' (itemsKey feedId) = VUndef) as Hitems.
  { subst st'.
    rewrite read_del_ne by (intros E; by apply (itemsKey_ne_guidsKey feedId)).
    apply read_del_eq. }
  assert (read st' (guidsKey feedId) = VUndef) as Hguids by apply read_del_eq.
  assert (feedExists st' feedId = false) as Hgone
    by by apply feedExists_false.
  split; [done|]. split; [done|]. split; [|split; [|split]].
  - unfold ledger, array_at. by rewrite Hitems.
  - intros g. unfold inGuidIndex, sismember, array_at. by rewrite Hguids.
  - intros item. unfold addItem, addItem_try. by rewrite Hgone.
  - intros k Hc Hi Hg. subst st'. by rewrite !read_del_ne.
Qed.

(** X7. A configuration object with a non-empty string id that
    [createFeed] has stored is what [getFeedConfig] returns for that id,
    when the engine reads back the JSON text of the stored record. *)
Theorem createFeed_then_getFeedConfig now config id st :
  getprop config "id" = Some (VStr id) → id ≠ "" →
  readsBack (VObj [("feedConfig", config);
                   ("createdAt", VStr (toISOString now))]) →
  fst (createFeed now config st) = Ok (VStr id)
  ∧ getFeedConfig (snd (createFeed now config st)) id = Ok config.
Proof.
  intros Hid Hne [Htext Hback].
  assert (truthy (VStr id) = true) as Htruthy.
  { simpl. apply negb_true_iff. by apply String.eqb_neq. }
  assert (truthy config = true) as Hconfig by (by destruct config).
  unfold createFeed. rewrite Hid, Htruthy. simpl. split; [done|].
  unfold getFeedConfig, get, RedisMock.set. rewrite read_insert_eq. simpl.
  rewrite (proj2 (String.eqb_neq _ _) Htext). simpl.
  unfold JSON_parse_value. simpl. rewrite Hback.
  unfold getprop_opt. simpl. by rewrite Hconfig.
Qed.

End RegistryMore.

Section UpdateConfig.
Context `{Runtime}.
Import RedisMock RedisMockFacts.

(** X8. [updateFeedConfig] on an existing feed writes a record that keeps
    the other properties of the existing record (its creation timestamp
    among them) and whose configuration is the given one with its id
    replaced by the feed's id; the stored list and the GUID index are left
    as they were, and [getFeedConfig] then returns that configuration when
    the engine reads back the JSON text of the record. *)
Theorem updateFeedConfig_then_getFeedConfig now feedId config st :
  feedExists st feedId = true →
  readsBack (updatedData now feedId config (existingRecord st feedId)) →
  fst (updateFeedConfig now feedId config st) = Ok tt
  ∧ getFeedConfig (snd (updateFeedConfig now feedId config st)) feedId
    = Ok (VObj (set_prop "id" (VStr feedId) (spread config)))
  ∧ getprop (VObj (set_prop "id" (VStr feedId) (spread config))) "id"
    = Some (VStr feedId)
  ∧ (∀ k, k ≠ "feedConfig" → k ≠ "updatedAt" →
          getprop (updatedData now feedId config (existingRecord st feedId)) k
          = Some (default VUndef (assoc k (spread (existingRecord st feedId)))))
  ∧ ledger (snd (updateFeedConfig now feedId config st)) feedId
    = ledger st feedId
  ∧ (∀ g, inGuidIndex (snd (updateFeedConfig now feedId config st)) feedId g
          = inGuidIndex st feedId g).
Proof.
  intros Hex [Htext Hback]. unfold updateFeedConfig. rewrite Hex. simpl.
  split; [done|]. split; [|split; [|split; [|split]]].
  - unfold getFeedConfig, get, RedisMock.set. rewrite read_insert_eq. simpl.
    rewrite (proj2 (String.eqb_neq _ _) Htext). simpl.
    unfold JSON_parse_value. simpl. rewrite Hback.
    unfold getprop_opt, updatedData. simpl.
    rewrite (assoc_set_prop_ne "updatedAt" "feedConfig") by done.
    by rewrite assoc_set_prop_eq.
  - simpl. by rewrite assoc_set_prop_eq.
  - intros k Hf Hu. unfold updatedData. simpl.
    by rewrite !assoc_set_prop_ne.
  - unfold ledger, RedisMock.set. f_equal. apply array_at_read.
    apply read_insert_ne, configKey_ne_itemsKey.
  - intros g. unfold inGuidIndex, sismember, RedisMock.set.
    rewrite (array_at_read st); [done|].
    apply read_insert_ne, configKey_ne_guidsKey.
Qed.

End UpdateConfig.

Lemma missing_feed_not_found_witness :
  @getFeedConfig Tiny.runtime Scenario.store0 "nope"
  = Throw (FeedNotFoundError "nope")
  ∧ @getItems Tiny.runtime true Scenario.store0 "nope"
    = Throw (FeedNotFoundError "nope")
  ∧ itemExists Scenario.store0 "nope" (VStr "a")
    = Throw (FeedNotFoundError "nope")
  ∧ @addItem Tiny.runtime "nope" Scenario.itemA Scenario.store0
    = (Throw (FeedNotFoundError "nope"), Scenario.store0)
  ∧ clearItems "nope" Scenario.store0
    = (Throw (FeedNotFoundError "nope"), Scenario.store0)
  ∧ @updateFeedConfig Tiny.runtime 3 "nope" Cases.configNew Scenario.store0
    = (Throw (FeedNotFoundError "nope"), Scenario.store0)
  ∧ deleteFeed "nope" Scenario.store0
    = (Throw (FeedNotFoundError "nope"), Scenario.store0).
Proof.
  apply (@missing_feed_not_found Tiny.runtime 3 true "nope" Scenario.itemA
           (VStr "a") Cases.configNew Scenario.store0).
  vm_compute. reflexivity.
Defined.

Lemma clearItems_empties_feed_witness :
  fst (clearItems "f1" Scenario.storeABC) = Ok tt
  ∧ @getFeedConfig Tiny.runtime (snd (clearItems "f1" Scenario.storeABC)) "f1"
    = Ok Scenario.config2
  ∧ ledger (snd (clearItems "f1" Scenario.storeABC)) "f1" = []
  ∧ (∀ g, inGuidIndex (snd (clearItems "f1" Scenario.storeABC)) "f1" g = false)
  ∧ @getItems Tiny.runtime false (snd (clearItems "f1" Scenario.storeABC)) "f1"
    = Ok [].
Proof.
  apply (@clearItems_empties_feed Tiny.runtime false "f1" Scenario.storeABC
           Scenario.config2).
  vm_compute. reflexivity.
Defined.

Lemma getItems_returns_ledger_witness :
  @getItems Tiny.runtime false Scenario.storeABC "f1"
  = Ok (if false then ledger Scenario.storeABC "f1"
        else take (Z.to_nat 2) (ledger Scenario.storeABC "f1")).
Proof.
  apply (@getItems_returns_ledger Tiny.runtime false "f1" Scenario.storeABC
           Scenario.config2 2).
  - vm_compute. reflexivity.
  - reflexivity.
  - lia.
Defined.

Lemma deleteFeed_removes_feed_witness :
  fst (deleteFeed "f2" Cases.twoFeedsOneItem) = Ok tt
  ∧ feedExists (snd (deleteFeed "f2" Cases.twoFeedsOneItem)) "f2" = false
  ∧ ledger (snd (deleteFeed "f2" Cases.twoFeedsOneItem)) "f2" = []
  ∧ (∀ g, inGuidIndex (snd (deleteFeed "f2" Cases.twoFeedsOneItem)) "f2" g
          = false)
  ∧ (∀ item,
       @addItem Tiny.runtime "f2" item
         (snd (deleteFeed "f2" Cases.twoFeedsOneItem))
       = (Throw (FeedNotFoundError "f2"),
          snd (deleteFeed "f2" Cases.twoFeedsOneItem)))
  ∧ (∀ k, k ≠ configKey "f2" → k ≠ itemsKey "f2" → k ≠ guidsKey "f2" →
          RedisMock.read (snd (deleteFeed "f2" Cases.twoFeedsOneItem)) k
          = RedisMock.read Cases.twoFeedsOneItem k).
Proof.
  apply (@deleteFeed_removes_feed Tiny.runtime "f2" Cases.twoFeedsOneItem).
  vm_compute. reflexivity.
Defined.

Lemma createFeed_then_getFeedConfig_witness :
  fst (@createFeed Tiny.runtime 0 Scenario.config2 ∅) = Ok (VStr "f1")
  ∧ @getFeedConfig Tiny.runtime
      (snd (@createFeed Tiny.runtime 0 Scenario.config2 ∅)) "f1"
    = Ok Scenario.config2.
Proof.
  apply (@createFeed_then_getFeedConfig Tiny.runtime 0 Scenario.config2 "f1" ∅).
  - reflexivity.
  - discriminate.
  - split; [vm_compute; discriminate | vm_compute; reflexivity].
Defined.

Lemma updateFeedConfig_then_getFeedConfig_witness :
  fst (@updateFeedConfig Tiny.runtime 9 "f1" Cases.configNew Scenario.storeABC)
  = Ok tt
  ∧ @getFeedConfig Tiny.runtime
      (snd (@updateFeedConfig Tiny.runtime 9 "f1" Cases.configNew
              Scenario.storeABC)) "f1"
    = Ok (VObj (set_prop "id" (VStr "f1") (spread Cases.configNew)))
  ∧ getprop (VObj (set_prop "id" (VStr "f1") (spread Cases.configNew))) "id"
    = Some (VStr "f1")
  ∧ (∀ k, k ≠ "feedConfig" → k ≠ "updatedAt" →
          getprop
            (@updatedData Tiny.runtime 9 "f1" Cases.configNew
               (@existingRecord Tiny.runtime Scenario.storeABC "f1")) k
          = Some (default VUndef
                    (assoc k
                       (spread
                          (@existingRecord Tiny.runtime Scenario.storeABC "f1")))))
  ∧ ledger
      (snd (@updateFeedConfig Tiny.runtime 9 "f1" Cases.configNew
              Scenario.storeABC)) "f1"
    = ledger Scenario.storeABC "f1"
  ∧ (∀ g, inGuidIndex
            (snd (@updateFeedConfig Tiny.runtime 9 "f1" Cases.configNew
                    Scenario.storeABC)) "f1" g
          = inGuidIndex Scenario.storeABC "f1" g).
Proof.
  apply (@updateFeedConfig_then_getFeedConfig Tiny.runtime 9 "f1"
           Cases.configNew Scenario.storeABC).
  - vm_compute. reflexivity.
  - split; [vm_compute; discriminate | vm_compute; reflexivity].
Defined.

(** ** The in-memory store as a list, a set and a counter *)

Section StoreMore.
Import RedisMock RedisMockFacts.

Lemma slice_all {A} (l : list A) : slice l (Some 0) None = l.
Proof.
  unfold slice, rel_index, to_integer. simpl default.
  replace (0 <? 0) with false by lia.
  rewrite (Z.min_l 0) by lia. change (Z.to_nat 0) with 0%nat.
  rewrite drop_0, Z.sub_0_r, Nat2Z.id. apply firstn_all.
Qed.

Lemma as_array_lpushAll st key values :
  as_array (lpushAll st key values) key
  = (VStr <$> rev values) ++ as_array st key.
Proof.
  revert st. induction values as [|v values IH]; intros st; [done|].
  simpl. rewrite IH. unfold as_array at 1, lpush. rewrite read_insert_eq.
  simpl. rewrite fmap_app. simpl. by rewrite <- app_assoc.
Qed.

(** X9. After one or more [lpush] calls on a key, [lrange(key, 0, -1)]
    returns the pushed values, the last pushed first, followed by what the
    key held before, and [llen] counts them all. *)
Theorem lpushAll_reads_back st key values :
  values ≠ [] →
  lrange (lpushAll st key values) key (Some 0) (Some (-1))
  = (VStr <$> rev values) ++ as_array st key
  ∧ llen (lpushAll st key values) key
    = Z.of_nat (length values + length (as_array st key)).
Proof.
  intros Hne.
  assert (array_at (lpushAll st key values) key
          = Some ((VStr <$> rev values) ++ as_array st key)) as Harr.
  { rewrite <- as_array_lpushAll.
    destruct values as [|v values _] using rev_ind; [done|].
    unfold lpushAll. rewrite fold_left_app. simpl.
    unfold array_at, as_array, lpush. by rewrite !read_insert_eq. }
  unfold lrange, llen. rewrite Harr. simpl. split.
  - apply slice_all.
  - by rewrite length_app, length_fmap, length_rev.
Qed.

Lemma includes_strings ss x :
  includes (VStr <$> ss) (VStr x) = bool_decide (x ∈ ss).
Proof.
  induction ss as [|a ss IH]; [done|].
  rewrite fmap_cons. unfold includes in *. cbn [existsb same_value].
  destruct (String.eqb x a) eqn:E; cbn [orb].
  - apply String.eqb_eq in E as ->. symmetry. apply bool_decide_eq_true.
    by left.
  - apply String.eqb_neq in E. rewrite IH. apply bool_decide_ext.
    rewrite elem_of_cons. naive_solver.
Qed.

Lemma remove_first_strings ss x :
  NoDup ss →
  ∃ ss', remove_first (VStr x) (VStr <$> ss) = VStr <$> ss'
         ∧ NoDup ss'
         ∧ (list_to_set ss' : gset string) = list_to_set ss ∖ {[ x ]}.
Proof.
  induction 1 as [|a ss Ha Hnd IH].
  - exists []. split; [done|]. split; [constructor|]. set_solver.
  - rewrite fmap_cons. cbn [remove_first same_value].
    destruct (String.eqb x a) eqn:E.
    + apply String.eqb_eq in E as ->. exists ss. split; [done|].
      split; [done|]. set_solver.
    + apply String.eqb_neq in E. destruct IH as (ss' & Heq & Hnd' & Hset).
      rewrite Heq.
      exists (a :: ss'). split; [done|]. split.
      * constructor; [|done]. intros Hin.
        assert (a ∈ (list_to_set ss' : gset string)) as Hin'
          by by apply elem_of_list_to_set.
        rewrite Hset in Hin'. set_solver.
      * simpl. rewrite Hset. set_solver.
Qed.

(** The array under a key used as a set of strings holds each member
    once. *)
Lemma set_commands_invariant key cs st (X : gset string) :
  (read st key = VUndef ∧ X = ∅)
  ∨ (∃ ss, read st key = VArr (VStr <$> ss) ∧ NoDup ss ∧ list_to_set ss = X) →
  (read (fold_left (runSetCommand key) cs st) key = VUndef
   ∧ fold_left setAfter cs X = ∅)
  ∨ (∃ ss, read (fold_left (runSetCommand key) cs st) key = VArr (VStr <$> ss)
           ∧ NoDup ss ∧ list_to_set ss = fold_left setAfter cs X).
Proof.
  revert st X. induction cs as [|c cs IH]; intros st X Hinv; [done|].
  simpl. apply IH. destruct c as [x|x]; simpl.
  - right. unfold sadd, as_array.
    destruct Hinv as [[Hread ->]|(ss & Hread & Hnd & <-)]; rewrite Hread; simpl.
    + exists [x]. rewrite read_insert_eq. split; [done|].
      split; [apply NoDup_singleton|]. set_solver.
    + rewrite includes_strings. case_bool_decide as Hin.
      * exists ss. rewrite read_insert_eq. split; [done|]. split; [done|].
        set_solver.
      * exists (ss ++ [x]). rewrite read_insert_eq. rewrite fmap_app.
        split; [done|]. split.
        -- apply NoDup_app. split; [done|]. split; [|apply NoDup_singleton].
           intros y Hy Hy'. apply list_elem_of_singleton in Hy' as ->. done.
        -- rewrite list_to_set_app_L. set_solver.
  - unfold srem, array_at.
    destruct Hinv as [[Hread ->]|(ss & Hread & Hnd & <-)]; rewrite Hread.
    + left. split; [done|]. set_solver.
    + right. rewrite includes_strings. case_bool_decide as Hin.
      * destruct (remove_first_strings ss x Hnd) as (ss' & -> & Hnd' & Hset).
        exists ss'. by rewrite read_insert_eq.
      * exists ss. split; [done|]. split; [done|]. set_solver.
Qed.

(** X10. A key that starts out missing and receives [sadd] and [srem]
    commands with string members behaves as a set: [sismember] answers 1
    exactly for the members of the set the commands describe. *)
Theorem set_commands_refine key cs st x :
  read st key = VUndef →
  sismember (fold_left (runSetCommand key) cs st) key (VStr x)
  = if bool_decide (x ∈ fold_left setAfter cs ∅) then 1 else 0.
Proof.
  intros Hread.
  destruct (set_commands_invariant key cs st ∅ (or_introl (conj Hread eq_refl)))
    as [[Hread' ->]|(ss & Hread' & _ & <-)];
    unfold sismember, array_at; rewrite Hread'.
  - by rewrite bool_decide_eq_false_2 by set_solver.
  - rewrite includes_strings.
    rewrite (bool_decide_ext (x ∈ ss) (x ∈ (list_to_set ss : gset string)));
      [done|].
    by rewrite elem_of_list_to_set.
Qed.

End StoreMore.

Lemma lpushAll_reads_back_witness :
  RedisMock.lrange (lpushAll Scenario.store0 "k" ["a"; "b"]) "k" (Some 0)
    (Some (-1))
  = (VStr <$> rev ["a"; "b"]) ++ RedisMock.as_array Scenario.store0 "k"
  ∧ RedisMock.llen (lpushAll Scenario.store0 "k" ["a"; "b"]) "k"
    = Z.of_nat (length ["a"; "b"]
                + length (RedisMock.as_array Scenario.store0 "k")).
Proof.
  apply (lpushAll_reads_back Scenario.store0 "k" ["a"; "b"]). discriminate.
Defined.

Lemma set_commands_refine_witness :
  RedisMock.sismember
    (fold_left (runSetCommand "s") [SAdd "a"; SAdd "b"; SAdd "a"; SRem "a"]
       Scenario.store0) "s" (VStr "a")
  = if bool_decide
         ("a" ∈ fold_left setAfter [SAdd "a"; SAdd "b"; SAdd "a"; SRem "a"] ∅)
    then 1 else 0.
Proof.
  apply (set_commands_refine "s" [SAdd "a"; SAdd "b"; SAdd "a"; SRem "a"]
           Scenario.store0 "a").
  vm_compute. reflexivity.
Defined.

Section CounterMore.
Context `{Runtime}.
Import RedisMock RedisMockFacts RedisMockTimed.

Lemma incrTimes_from n key st c s :
  read st key = VStr s → parseInt s = Some c →
  (∀ i, c < i < c + Z.of_nat n → parseInt (Number_toString i) = Some i) →
  fst (incrTimes n st key) = (fun i => c + Z.of_nat i) <$> seq 1 n.
Proof.
  revert st c s. induction n as [|n IH]; intros st c s Hread Hparse Hround;
    [done|].
  cbn [incrTimes]. unfold incr at 1. rewrite Hread, Hparse.
  cbn [is_undefined].
  destruct (incrTimes n _ key) as [rs st2] eqn:Hrest. cbn [fst].
  rewrite <- cons_seq, fmap_cons. f_equal; try lia.
  rewrite <- fmap_S_seq, <- list_fmap_compose.
  destruct n as [|n']; [by inversion Hrest|].
  pose proof (IH (<[key:=VStr (Number_toString (c + 1))]> st) (c + 1)
                (Number_toString (c + 1))) as IH'.
  rewrite Hrest in IH'. cbn [fst] in IH'. rewrite IH'.
  - apply list_fmap_ext. intros. simpl. lia.
  - apply read_insert_eq.
  - apply Hround. lia.
  - intros i Hi. apply Hround. lia.
Qed.

(** X11. On a key that is missing, [n] successive [incr] calls return
    1, 2, ..., [n], provided the engine parses back the counter texts that
    get stored in between. *)
Theorem incr_counts n key st :
  read st key = VUndef →
  parseInt "1" = Some 1 →
  (∀ i, 1 < i < Z.of_nat n → parseInt (Number_toString i) = Some i) →
  fst (incrTimes n st key) = (fun i => Z.of_nat i) <$> seq 1 n.
Proof.
  intros Hread Hone Hround. destruct n as [|n]; [done|].
  cbn [incrTimes]. unfold incr at 1. rewrite Hread. cbn [is_undefined].
  destruct (incrTimes n _ key) as [rs st2] eqn:Hrest. cbn [fst].
  rewrite <- cons_seq, fmap_cons. f_equal; try lia.
  rewrite <- fmap_S_seq, <- list_fmap_compose.
  pose proof (incrTimes_from n key (<[key:=VStr "1"]> st) 1 "1") as Hfrom.
  rewrite Hrest in Hfrom. cbn [fst] in Hfrom. rewrite Hfrom.
  - apply list_fmap_ext. intros. simpl. lia.
  - apply read_insert_eq.
  - done.
  - intros i Hi. apply Hround. lia.
Qed.






End CounterMore.

Lemma incr_counts_witness :
  fst (@incrTimes Tiny.runtime 3 Scenario.store0 "c")
  = (fun i => Z.of_nat i) <$> seq 1 3.
Proof.
  apply (@incr_counts Tiny.runtime 3 "c" Scenario.store0).
  - vm_compute. reflexivity.
  - reflexivity.
  - intros i Hi. assert (i = 2) as -> by lia. reflexivity.
Defined.


(** ** The rate limiter, further *)

Section LimiterMore.
Context {S : Type} `{RemoteStore S}.
Import RateLimit.

Lemma cachedOutcomes_over c n :
  max ≤ c → cachedOutcomes c n = replicate n TooManyRequests.
Proof.
  revert c. induction n as [|n IH]; intros c Hc; [done|].
  simpl. replace (max <? c + 1) with true by lia.
  f_equal. apply IH. lia.
Qed.

(** X13. A client whose live cache entry has reached the limit is rejected
    on every further GET request until the entry expires, and none of these
    requests reaches the remote store. *)
Theorem rejected_until_expiry req ts cache (remote : S) c e :
  method req = "GET" →
  cache !! rateKey req = Some {| count := c; expires := e |} →
  max ≤ c →
  Forall (fun t => t < e) ts →
  serve ((fun t => (req, t)) <$> ts) cache remote
  = (replicate (length ts) TooManyRequests,
     <[rateKey req := {| count := c + Z.of_nat (length ts); expires := e |}]>
       cache,
     remote).
Proof.
  intros Hget Hc Hover Hts.
  rewrite (serve_cached req ts cache remote c e Hget Hc Hts).
  by rewrite cachedOutcomes_over.
Qed.

Lemma cache_of_viaRemote_other key now cache (remote : S) k :
  k ≠ key → cache_of (viaRemote key now cache remote) !! k = cache !! k.
Proof.
  intros Hk. unfold viaRemote.
  destruct (pipelineIncrTtl now key remote) as [[|[results|]] r']; simpl;
    [done| |done].
  destruct results as [|a [|b rest]]; simpl; [done|done|].
  destruct ((a =? 1) || (b <? 0)).
  - destruct (remoteExpire now key (windowMs / 1000) r') as [[z|] r''];
      simpl; [by rewrite lookup_insert_ne | done].
  - simpl. by rewrite lookup_insert_ne.
Qed.

(** X14. Handling a request changes at most the cache entry of the client
    it comes from: the entry of every other key is left as it was. *)
Theorem rateLimiter_other_clients_untouched req now cache (remote : S) k :
  k ≠ rateKey req →
  cache_of (rateLimiter req now cache remote) !! k = cache !! k.
Proof.
  intros Hk. unfold rateLimiter.
  destruct (negb (String.eqb (method req) "GET")); [done|].
  destruct (cache !! rateKey req) as [cached|].
  - destruct (now <? expires cached); simpl.
    + by rewrite lookup_insert_ne.
    + by apply cache_of_viaRemote_other.
  - by apply cache_of_viaRemote_other.
Qed.

(** What [viaRemote] answers and does to the store does not depend on the
    cache it is given. *)
Lemma viaRemote_cache_irrelevant key now cache cache' (remote : S) :
  result_of (viaRemote key now cache remote)
  = result_of (viaRemote key now cache' remote)
  ∧ headers_of (viaRemote key now cache remote)
    = headers_of (viaRemote key now cache' remote)
  ∧ remote_of (viaRemote key now cache remote)
    = remote_of (viaRemote key now cache' remote).
Proof.
  unfold viaRemote.
  destruct (pipelineIncrTtl now key remote) as [[|[results|]] r']; simpl;
    [done| |done].
  destruct results as [|a [|b rest]]; simpl; [done|done|].
  destruct ((a =? 1) || (b <? 0)); [|done].
  by destruct (remoteExpire now key (windowMs / 1000) r') as [[z|] r''].
Qed.

End LimiterMore.

Lemma rejected_until_expiry_witness :
  RateLimit.serve (H := Scenario.unreachable)
    ((fun t => (Scenario.getFrom "a", t)) <$> [10; 20])
    (<["ratelimit:a" := {| RateLimit.count := 100; RateLimit.expires := 30 |}]> ∅)
    tt
  = (replicate (length [10; 20]) RateLimit.TooManyRequests,
     <[RateLimit.rateKey (Scenario.getFrom "a") :=
         {| RateLimit.count := 100 + Z.of_nat (length [10; 20]);
            RateLimit.expires := 30 |}]>
       (<["ratelimit:a" := {| RateLimit.count := 100; RateLimit.expires := 30 |}]> ∅),
     tt).
Proof.
  apply (@rejected_until_expiry unit Scenario.unreachable
           (Scenario.getFrom "a") [10; 20] _ tt 100 30).
  - reflexivity.
  - vm_compute. reflexivity.
  - vm_compute. discriminate.
  - repeat constructor.
Defined.

Lemma rateLimiter_other_clients_untouched_witness :
  RateLimit.cache_of
    (RateLimit.rateLimiter (H := Scenario.unreachable) (Scenario.getFrom "a")
       60 Cases.smallCache tt) !! "ratelimit:b"
  = Cases.smallCache !! "ratelimit:b".
Proof.
  apply (@rateLimiter_other_clients_untouched unit Scenario.unreachable
           (Scenario.getFrom "a") 60 Cases.smallCache tt "ratelimit:b").
  vm_compute. discriminate.
Defined.

(** ** The sweep of the cache *)

Section SweepFacts.
Import RateLimit Sweep.

Lemma insertByExpiry_perm x l : insertByExpiry x l ≡ₚ x :: l.
Proof.
  induction l as [|y l IH]; simpl; [done|].
  destruct (expires (snd x) <=? expires (snd y)); [done|].
  rewrite IH. apply Permutation_swap.
Qed.

Lemma sortByExpiry_perm l : sortByExpiry l ≡ₚ l.
Proof.
  induction l as [|x l IH]; simpl; [done|].
  by rewrite insertByExpiry_perm, IH.
Qed.

Lemma entriesOf_keys order (cache : memCache) :
  (entriesOf order cache).*1 = filter (fun k => is_Some (cache !! k)) order.
Proof.
  induction order as [|k order IH]; [done|].
  unfold entriesOf in *. simpl. rewrite filter_cons.
  destruct (cache !! k) as [e|] eqn:E; simpl; [f_equal|]; apply IH.
Qed.

Lemma lookup_fold_delete (l : list (string * entry)) (cache : memCache) k :
  fold_left (fun c kv => delete (fst kv) c) l cache !! k
  = if decide (k ∈ l.*1) then None else cache !! k.
Proof.
  revert cache. induction l as [|[k0 e0] l IH]; intros cache.
  - by destruct (decide (k ∈ ([] : list (string * entry)).*1)) as [Hin|];
      [apply elem_of_nil in Hin|].
  - cbn [fold_left]. rewrite IH, fmap_cons. cbn [fst].
    destruct (decide (k ∈ l.*1)) as [Hin|Hout],
      (decide (k ∈ k0 :: l.*1)) as [Hin'|Hout']; try done.
    + exfalso. apply Hout'. by right.
    + apply elem_of_cons in Hin' as [->|Hin']; [|done].
      apply lookup_delete_eq.
    + apply lookup_delete_ne. intros ->. apply Hout'. by left.
Qed.

Lemma dom_fold_delete (l : list (string * entry)) (cache : memCache) :
  dom (fold_left (fun c kv => delete (fst kv) c) l cache)
  = dom cache ∖ list_to_set l.*1.
Proof.
  apply set_eq. intros k.
  rewrite elem_of_dom, lookup_fold_delete, elem_of_difference, elem_of_dom,
    elem_of_list_to_set.
  destruct (decide (k ∈ l.*1)); [|naive_solver].
  split; [by intros [? ?] | naive_solver].
Qed.

(** X15. Whatever the cache holds, after the sweep it holds at most 10000
    entries, and each of them is an entry it held before whose expiry lies
    after the time of the sweep. *)
Theorem sweep_bounded now order (cache : memCache) :
  NoDup order →
  (∀ k, is_Some (cache !! k) → k ∈ order) →
  Z.of_nat (size (sweep now order cache)) ≤ MAX_CACHE_SIZE
  ∧ ∀ k e, sweep now order cache !! k = Some e →
           cache !! k = Some e ∧ now < expires e.
Proof.
  intros Hnd Hcover. unfold sweep.
  set (cache1 := filter (fun kv => now < expires (snd kv)) cache).
  assert (∀ k e, cache1 !! k = Some e → cache !! k = Some e ∧ now < expires e)
    as Hlive.
  { intros k e Hk. by apply map_lookup_filter_Some in Hk. }
  destruct (MAX_CACHE_SIZE <? Z.of_nat (size cache1)) eqn:Hbig;
    [|split; [lia | done]].
  set (entries := sortByExpiry (entriesOf order cache1)).
  assert (entries.*1 ≡ₚ filter (fun k => is_Some (cache1 !! k)) order) as Hkeys.
  { subst entries. rewrite sortByExpiry_perm. by rewrite entriesOf_keys. }
  assert (NoDup entries.*1) as Hnd'.
  { rewrite Hkeys. by apply NoDup_filter. }
  assert ((list_to_set entries.*1 : gset string) = dom cache1) as Hdom.
  { apply set_eq. intros k.
    rewrite elem_of_list_to_set, Hkeys, list_elem_of_filter, elem_of_dom.
    split; [naive_solver|]. intros Hk. split; [done|].
    apply Hcover. destruct Hk as [e Hk]. exists e. by apply Hlive. }
  assert (length entries = size cache1) as Hlen.
  { rewrite <- (length_fmap fst), <- (size_list_to_set (C := gset string))
      by done.
    rewrite Hdom. apply size_dom. }
  rewrite RedisMockFacts.slice_keep_first by lia.
  set (r := Z.to_nat (Z.of_nat (length entries) - MAX_CACHE_SIZE)).
  split.
  - rewrite <- size_dom, dom_fold_delete.
    rewrite size_difference.
    + rewrite size_dom, size_list_to_set.
      * rewrite length_fmap, length_take. subst r.
        unfold MAX_CACHE_SIZE in *. lia.
      * rewrite fmap_take. eapply sublist_NoDup; [done | apply sublist_take].
    + intros k Hk. rewrite <- Hdom.
      apply elem_of_list_to_set in Hk. apply elem_of_list_to_set.
      rewrite fmap_take in Hk. by apply subseteq_take in Hk.
  - intros k e Hk. rewrite lookup_fold_delete in Hk.
    destruct (decide _); [done|]. by apply Hlive.
Qed.

(** X16. While the cache holds no more than 10000 entries, a sweep at or
    before the time of a request changes neither the answer to the request,
    nor its rate-limit headers, nor what reaches the remote store. *)
Theorem sweep_invisible {S : Type} `{RemoteStore S} swept order req now cache
    (remote : S) :
  Z.of_nat (size cache) ≤ MAX_CACHE_SIZE →
  swept ≤ now →
  result_of (rateLimiter req now (sweep swept order cache) remote)
  = result_of (rateLimiter req now cache remote)
  ∧ headers_of (rateLimiter req now (sweep swept order cache) remote)
    = headers_of (rateLimiter req now cache remote)
  ∧ remote_of (rateLimiter req now (sweep swept order cache) remote)
    = remote_of (rateLimiter req now cache remote).
Proof.
  intros Hsize Hswept. unfold sweep.
  set (cache1 := filter (fun kv => swept < expires (snd kv)) cache).
  assert (size cache1 ≤ size cache)%nat as Hle
    by apply map_subseteq_size, map_filter_subseteq.
  replace (MAX_CACHE_SIZE <? Z.of_nat (size cache1)) with false by lia.
  unfold rateLimiter.
  destruct (negb (String.eqb (method req) "GET")); [done|].
  destruct (cache !! rateKey req) as [cached|] eqn:Hc.
  - destruct (now <? expires cached) eqn:Hlive.
    + assert (cache1 !! rateKey req = Some cached) as ->.
      { apply map_lookup_filter_Some. split; [done|]. simpl. lia. }
      by rewrite Hlive.
    + destruct (cache1 !! rateKey req) as [cached'|] eqn:Hc'.
      * apply map_lookup_filter_Some in Hc' as [Hc' _].
        rewrite Hc in Hc'. injection Hc' as <-. rewrite Hlive.
        apply viaRemote_cache_irrelevant.
      * apply viaRemote_cache_irrelevant.
  - assert (cache1 !! rateKey req = None) as ->.
    { apply map_lookup_filter_None. by left. }
    apply viaRemote_cache_irrelevant.
Qed.

End SweepFacts.

Lemma sweep_bounded_witness :
  Z.of_nat (size (Sweep.sweep 50 Cases.smallOrder Cases.smallCache))
  ≤ Sweep.MAX_CACHE_SIZE
  ∧ ∀ k e, Sweep.sweep 50 Cases.smallOrder Cases.smallCache !! k = Some e →
           Cases.smallCache !! k = Some e ∧ 50 < RateLimit.expires e.
Proof.
  apply (sweep_bounded 50 Cases.smallOrder Cases.smallCache).
  - repeat constructor; set_solver.
  - intros k [e Hk]. unfold Cases.smallCache in Hk.
    apply lookup_insert_Some in Hk as [[<- _]|[_ Hk]]; [set_solver|].
    apply lookup_insert_Some in Hk as [[<- _]|[_ Hk]]; [set_solver|].
    by rewrite lookup_empty in Hk.
Defined.

Lemma sweep_invisible_witness :
  RateLimit.result_of
    (RateLimit.rateLimiter (H := Scenario.unreachable) (Scenario.getFrom "a")
       60 (Sweep.sweep 50 Cases.smallOrder Cases.smallCache) tt)
  = RateLimit.result_of
      (RateLimit.rateLimiter (H := Scenario.unreachable) (Scenario.getFrom "a")
         60 Cases.smallCache tt)
  ∧ RateLimit.headers_of
      (RateLimit.rateLimiter (H := Scenario.unreachable) (Scenario.getFrom "a")
         60 (Sweep.sweep 50 Cases.smallOrder Cases.smallCache) tt)
    = RateLimit.headers_of
        (RateLimit.rateLimiter (H := Scenario.unreachable)
           (Scenario.getFrom "a") 60 Cases.smallCache tt)
  ∧ RateLimit.remote_of
      (RateLimit.rateLimiter (H := Scenario.unreachable) (Scenario.getFrom "a")
         60 (Sweep.sweep 50 Cases.smallOrder Cases.smallCache) tt)
    = RateLimit.remote_of
        (RateLimit.rateLimiter (H := Scenario.unreachable)
           (Scenario.getFrom "a") 60 Cases.smallCache tt).
Proof.
  apply (@sweep_invisible unit Scenario.unreachable 50 Cases.smallOrder
           (Scenario.getFrom "a") 60 Cases.smallCache tt).
  - vm_compute. discriminate.
  - lia.
Defined.

(** ** Authentication *)

Lemma prefix_split p s :
  String.prefix p s = true → s = p +:+ substringFrom (String.length p) s.
Proof.
  revert s. induction p as [|a p IH]; intros s Hp; [by destruct s|].
  destruct s as [|b s]; simpl in Hp; [done|].
  destruct (ascii_dec a b) as [->|]; [|done].
  change (String b s = String b (p +:+ substringFrom (String.length p) s)).
  by rewrite <- (IH s Hp).
Qed.

(** X17. The authentication middleware calls [next()] exactly when the
    Authorization header is [Bearer ] followed by the API secret; every
    other header, and a missing one, is answered with 401. *)
Theorem authenticate_exactly_the_secret API_SECRET authHeader :
  authenticate API_SECRET authHeader = AuthNext
  ↔ authHeader = Some ("Bearer " +:+ API_SECRET).
Proof.
  unfold authenticate, RateLimit.present. split.
  - destruct authHeader as [h|]; [|done].
    destruct (String.eqb h ""); [done|].
    destruct (String.prefix "Bearer " h) eqn:Hp; [cbn [negb]|done].
    destruct (String.eqb (substringFrom 7 h) API_SECRET) eqn:Hs; [|done].
    intros _. apply String.eqb_eq in Hs as <-.
    f_equal. by apply (prefix_split "Bearer ").
  - intros ->.
    change ("Bearer " +:+ API_SECRET)
      with (String "B" (String "e" (String "a" (String "r" (String "e"
              (String "r" (String " " API_SECRET))))))).
    cbn [String.eqb Ascii.eqb Bool.eqb String.prefix substringFrom negb].
    repeat (destruct (ascii_dec _ _); [|done]).
    replace (String.prefix "" API_SECRET) with true
      by (by destruct API_SECRET).
    cbn [negb]. by rewrite String.eqb_refl.
Qed.

(** ** Trimming a list *)

Section TrimFacts.
Import RedisMock RedisMockFacts.

(** X18. After [ltrim key start stop] on a key that holds a list, the whole
    list read back with [lrange key 0 -1] is what [lrange key start stop]
    returned before when [stop] is not negative; with any negative [stop]
    it is everything from [start] on, that is [lrange key start -1]. *)
Theorem ltrim_then_lrange st key l start stop :
  array_at st key = Some l →
  lrange (ltrim st key (Some start) (Some stop)) key (Some 0) (Some (-1))
  = lrange st key (Some start) (Some (if stop <? 0 then -1 else stop)).
Proof.
  intros Hl. unfold ltrim, lrange. rewrite Hl.
  unfold array_at at 1. rewrite read_insert_eq.
  rewrite (decide_True (P := Some (-1) = Some (-1))) by done.
  rewrite slice_all. cbn [isNaN num_lt orb].
  destruct (stop <? 0) eqn:Hs; [done|].
  done.
Qed.

End TrimFacts.

Lemma ltrim_then_lrange_witness :
  RedisMock.lrange (RedisMock.ltrim Cases.fourStrings "l" (Some 1) (Some 2)) "l"
    (Some 0) (Some (-1))
  = RedisMock.lrange Cases.fourStrings "l" (Some 1) (Some 2).
Proof.
  apply (ltrim_then_lrange Cases.fourStrings "l"
           [VStr "a"; VStr "b"; VStr "c"; VStr "d"] 1 2).
  vm_compute. reflexivity.
Defined.

(** ** Rendering stored items *)

Section RenderMore.
Context `{Runtime} `{Packages}.

Lemma formatItems_length now items format :
  length (formatItems now items format) = length items.
Proof. destruct format; simpl; by rewrite length_fmap. Qed.

(** X19. In html mode a stored string that parses to an object is rendered
    at its own position with every field other than [date] and [published]
    exactly as stored, markup included, and with [date] a Date made from
    the stored date or from the clock. *)
Theorem formatItems_html_keeps_fields now items i itemJson fs field :
  items !! i = Some itemJson →
  JSON_parse itemJson = Some (VObj fs) →
  field ≠ "date" → field ≠ "published" →
  ∃ item,
    formatItems now items api_html !! i = Some item
    ∧ getprop item field = getprop (VObj fs) field
    ∧ getprop item "date"
      = Some (dateOrNow now (getprop_opt (VObj fs) "date")).
Proof.
  intros Hi Hp Hd Hpub.
  assert (htmlItem now itemJson
          = Some (VObj (set_prop "published"
                          (dateOrUndefined (getprop_opt (VObj fs) "published"))
                          (set_prop "date"
                             (dateOrNow now (getprop_opt (VObj fs) "date"))
                             fs)))) as Hitem.
  { unfold htmlItem. rewrite Hp. done. }
  exists (VObj (set_prop "published"
                  (dateOrUndefined (getprop_opt (VObj fs) "published"))
                  (set_prop "date"
                     (dateOrNow now (getprop_opt (VObj fs) "date")) fs))).
  split; [|split].
  - cbn [formatItems]. rewrite list_lookup_fmap, Hi. cbn [fmap option_fmap option_map].
    rewrite Hitem. done.
  - by apply (htmlItem_keeps_markup now itemJson).
  - cbn [getprop]. rewrite assoc_set_prop_ne by done.
    by rewrite assoc_set_prop_eq.
Qed.

End RenderMore.

Lemma formatItems_html_keeps_fields_witness :
  ∃ item,
    @formatItems Tiny.runtime Tiny.packages 5
      [Scenario.notJson; Scenario.markedUp] api_html !! 1%nat = Some item
    ∧ getprop item "content" = Some (VStr "<p>hi</p>").
Proof.
  destruct (@formatItems_html_keeps_fields Tiny.runtime Tiny.packages 5
              [Scenario.notJson; Scenario.markedUp] 1 Scenario.markedUp
              [("title", VStr "<b>T</b>"); ("description", VStr "<i>D</i>");
               ("content", VStr "<p>hi</p>"); ("date", VNum 86400000)]
              "content")
    as (item & Hitem & Hfield & _).
  - reflexivity.
  - vm_compute. reflexivity.
  - discriminate.
  - discriminate.
  - exists item. split; [exact Hitem | exact Hfield].
Defined.

(** ** The read endpoints *)

Section ReadEndpoints.
Context `{Runtime} `{Packages}.
Import RedisMock RedisMockFacts.

Lemma getItems_ok useRedisMock st feedId config :
  getFeedConfig st feedId = Ok config →
  ∃ items, getItems useRedisMock st feedId = Ok items.
Proof.
  intros Hcfg. unfold getItems.
  rewrite (getFeedConfig_ok_exists _ _ _ Hcfg), Hcfg. cbn [negb].
  destruct (if useRedisMock then _ else _); eauto.
Qed.

(** X20. For a feed whose configuration can be read, the raw feed endpoint
    answers 200 with the JSON content type whatever strings are stored as
    its items: a stored string that does not parse cannot make the request
    fail. *)
Theorem raw_feed_request_never_fails now useRedisMock feedId st config :
  getFeedConfig st feedId = Ok config →
  textStatus (handleFeedRequest now useRedisMock feedId raw st) = 200
  ∧ textContentType (handleFeedRequest now useRedisMock feedId raw st)
    = Some "application/json; charset=utf-8".
Proof.
  intros Hcfg.
  destruct (getItems_ok useRedisMock _ _ _ Hcfg) as [items Hitems].
  unfold handleFeedRequest.
  rewrite (getFeedConfig_ok_exists _ _ _ Hcfg), Hitems, Hcfg. cbn [negb].
  assert (∃ siteUrl, getprop config "siteUrl" = Some siteUrl) as [siteUrl Hsite].
  { unfold getFeedConfig in Hcfg.
    destruct (negb (truthy (get st (configKey feedId)))); [done|].
    destruct (JSON_parse_value _) as [parsed|]; [|done].
    destruct (negb (truthy (getprop_opt parsed "feedConfig"))) eqn:Ht; [done|].
    injection Hcfg as <-. apply negb_false_iff in Ht.
    destruct (getprop_opt parsed "feedConfig"); try done; simpl; eauto. }
  unfold generateFeed. rewrite Hsite. done.
Qed.

(** X21. The items endpoint, for a feed whose configuration can be read,
    answers 200 when the [format] query parameter is missing, empty, [raw]
    or [html], with [total] the number of items [getItems] returns, and 400
    for any other value. *)
Theorem handleGetItems_status now useRedisMock feedId query st config :
  feedId ≠ "" →
  getFeedConfig st feedId = Ok config →
  let format := default "raw" (RateLimit.present query) in
  let response := handleGetItems now useRedisMock feedId query st in
  if String.eqb format "raw" || String.eqb format "html" then
    status response = 200
    ∧ ∃ items, getItems useRedisMock st feedId = Ok items
               ∧ getprop_opt (body response) "total"
                 = VNum (Z.of_nat (length items))
  else status response = 400.
Proof.
  intros Hne Hcfg format response. subst response. unfold handleGetItems.
  rewrite (proj2 (String.eqb_neq _ _) Hne).
  destruct (getItems_ok useRedisMock _ _ _ Hcfg) as [items Hitems].
  rewrite (getFeedConfig_ok_exists _ _ _ Hcfg), Hitems. cbn [negb].
  fold format.
  destruct (String.eqb format "raw" || String.eqb format "html"); [|done].
  split; [done|]. exists items. split; [done|].
  cbn. by rewrite formatItems_length, length_fmap.
Qed.

End ReadEndpoints.

Section ClearEndpoint.
Import RedisMock RedisMockFacts.

(** X22. The clear endpoint answers 404 for a feed that does not exist and
    leaves the store as it is; for a feed that exists it answers 200,
    whether or not the configuration can be read, and the feed then has no
    stored items and an empty GUID index while its configuration entry is
    untouched.  It never answers 500. *)
Theorem handleClearItems_status feedId st :
  feedId ≠ "" →
  let response := fst (handleClearItems feedId st) in
  let st' := snd (handleClearItems feedId st) in
  if feedExists st feedId then
    status response = 200
    ∧ ledger st' feedId = []
    ∧ (∀ g, inGuidIndex st' feedId g = false)
    ∧ read st' (configKey feedId) = read st (configKey feedId)
  else status response = 404 ∧ st' = st.
Proof.
  intros Hne response st'. subst response st'. unfold handleClearItems.
  rewrite (proj2 (String.eqb_neq _ _) Hne).
  destruct (feedExists st feedId) eqn:Hex; cbn [negb]; [|done].
  unfold clearItems. rewrite Hex. cbn [negb fst snd].
  set (st' := del (del st (itemsKey feedId)) (guidsKey feedId)).
  assert (read st' (itemsKey feedId) = VUndef) as Hitems.
  { subst st'.
    rewrite read_del_ne by (intros E; by apply (itemsKey_ne_guidsKey feedId)).
    apply read_del_eq. }
  assert (read st' (guidsKey feedId) = VUndef) as Hguids by apply read_del_eq.
  split; [done|]. split; [|split].
  - unfold ledger, array_at. by rewrite Hitems.
  - intros g. unfold inGuidIndex, sismember, array_at. by rewrite Hguids.
  - subst st'.
    rewrite read_del_ne by (intros E; by apply (configKey_ne_guidsKey feedId)).
    apply read_del_ne. intros E. by apply (configKey_ne_itemsKey feedId).
Qed.

End ClearEndpoint.

Lemma raw_feed_request_never_fails_witness :
  textStatus
    (@handleFeedRequest Tiny.runtime Tiny.packages 5 true "f1" raw
       Cases.storeMixed) = 200
  ∧ textContentType
      (@handleFeedRequest Tiny.runtime Tiny.packages 5 true "f1" raw
         Cases.storeMixed)
    = Some "application/json; charset=utf-8".
Proof.
  apply (@raw_feed_request_never_fails Tiny.runtime Tiny.packages 5 true "f1"
           Cases.storeMixed Scenario.config2).
  vm_compute. reflexivity.
Defined.

Lemma handleGetItems_status_witness :
  status
    (@handleGetItems Tiny.runtime Tiny.packages 5 true "f1" (Some "html")
       Cases.storeMixed) = 200.
Proof.
  apply (@handleGetItems_status Tiny.runtime Tiny.packages 5 true "f1"
           (Some "html") Cases.storeMixed Scenario.config2).
  - discriminate.
  - vm_compute. reflexivity.
Defined.

Lemma handleClearItems_status_witness :
  status (fst (handleClearItems "f1" Cases.storeMixed)) = 200.
Proof.
  apply (handleClearItems_status "f1" Cases.storeMixed).
  discriminate.
Defined.

(** ** The endpoints that write a configuration *)

Section ConfigEndpoints.
Context `{Runtime}.
Import RedisMock RedisMockFacts.

Lemma maxItemsOrDefault_positive v :
  ∃ m, maxItemsOrDefault v = VNum m ∧ 0 < m.
Proof.
  destruct v; simpl; try (exists 100; split; [done | lia]).
  destruct (0 <? n) eqn:E; [exists n | exists 100]; split; try done; lia.
Qed.

(** X23. When the create endpoint answers 201, the body parsed to a value
    with a non-empty string id, the store differs only at the configuration
    key of that id, where the JSON text of a record holding the new
    configuration was written, and that configuration carries the id and a
    positive number as maxItems: the number given if it was positive, 100
    otherwise. *)
Theorem handleCreateFeed_stores_positive_bound now text st response st' :
  handleCreateFeed now text st = (Ok response, st') →
  status response = 201 →
  ∃ inputConfig feedId m,
    JSON_parse text = Some inputConfig
    ∧ getprop_opt inputConfig "id" = VStr feedId ∧ feedId ≠ ""
    ∧ st' = RedisMock.set st (configKey feedId)
              (JSON_stringify
                 (VObj [("feedConfig", newFeedConfig now inputConfig);
                        ("createdAt", VStr (toISOString now))]))
    ∧ getprop_opt (newFeedConfig now inputConfig) "id" = VStr feedId
    ∧ maxItems (newFeedConfig now inputConfig) = Some m ∧ 0 < m
    ∧ VNum m = maxItemsOrDefault (getprop_opt inputConfig "maxItems").
Proof.
  unfold handleCreateFeed.
  destruct (JSON_parse text) as [inputConfig|]; [|by intros [= <- <-]].
  destruct (getprop inputConfig "title") as [title|] eqn:Htitle; [|done].
  destruct (negb (truthy title)); [by intros [= <- <-]|].
  destruct (negb (truthy (getprop_opt inputConfig "description")));
    [by intros [= <- <-]|].
  destruct (negb (truthy (getprop_opt inputConfig "siteUrl")));
    [by intros [= <- <-]|].
  destruct (getprop_opt inputConfig "id") as [| | | |feedId| | |] eqn:Hid;
    try (by intros [= <- <-]).
  - destruct (negb (truthy (VBool b))); by intros [= <- <-].
  - destruct (negb (truthy (VNum n))); by intros [= <- <-].
  - destruct (negb (truthy (VStr feedId))) eqn:Ht; cbn [isString negb orb];
      [by intros [= <- <-]|].
    apply negb_false_iff in Ht. simpl in Ht.
    apply negb_true_iff, String.eqb_neq in Ht.
    unfold createFeed, newFeedConfig. cbn [getprop assoc String.eqb Ascii.eqb
      Bool.eqb default from_option id]. rewrite Hid.
    change (truthy (VStr feedId)) with (negb (String.eqb feedId "")).
    rewrite (proj2 (String.eqb_neq _ _) Ht). cbn [negb].
    intros [= <- <-] _.
    destruct (maxItemsOrDefault_positive (getprop_opt inputConfig "maxItems"))
      as (m & Hm & Hpos).
    exists inputConfig, feedId, m.
    split; [done|]. split; [done|]. split; [done|].
    split; [by rewrite Hid|]. split; [by rewrite Hid|].
    split; [by rewrite Hm|]. split; [done|]. by rewrite Hm.
Qed.

Lemma set_prop_same k v fs : assoc k fs = Some v → set_prop k v fs = fs.
Proof.
  induction fs as [|[k' v'] fs IH]; simpl; [done|].
  destruct (String.eqb k k') eqn:E.
  - apply String.eqb_eq in E as <-. by intros [= ->].
  - intros Hfs. by rewrite IH.
Qed.

Lemma upsertConfig_shape now feedId current inputConfig updatedConfig :
  upsertConfig now feedId current inputConfig = Some updatedConfig →
  ∃ fs, updatedConfig = VObj fs ∧ assoc "id" fs = Some (VStr feedId).
Proof.
  unfold upsertConfig. destruct current as [currentConfig|].
  - intros [= <-]. eexists. split; [done|]. apply assoc_set_prop_eq.
  - destruct (getprop inputConfig "title"); [|done]. simpl.
    intros [= <-]. eexists. split; [done|]. done.
Qed.

Lemma ensureMaxItems_shape fs :
  ∃ fs' m,
    ensureMaxItems (VObj fs) = VObj fs'
    ∧ assoc "maxItems" fs' = Some (VNum m) ∧ 0 < m
    ∧ ∀ k, k ≠ "maxItems" → assoc k fs' = assoc k fs.
Proof.
  unfold ensureMaxItems, getprop_opt. cbn [getprop spread].
  destruct (assoc "maxItems" fs) as [v|] eqn:Hv; cbn [default from_option id].
  - destruct v;
      try (exists (set_prop "maxItems" (VNum 100) fs), 100;
           split; [done|]; split; [apply assoc_set_prop_eq|];
           split; [lia|]; intros k Hk; by apply assoc_set_prop_ne).
    destruct (n <=? 0) eqn:E.
    + exists (set_prop "maxItems" (VNum 100) fs), 100.
      split; [done|]. split; [apply assoc_set_prop_eq|].
      split; [lia|]. intros k Hk. by apply assoc_set_prop_ne.
    + exists fs, n. split; [done|]. split; [done|]. split; [lia|]. done.
  - exists (set_prop "maxItems" (VNum 100) fs), 100.
    split; [done|]. split; [apply assoc_set_prop_eq|].
    split; [lia|]. intros k Hk. by apply assoc_set_prop_ne.
Qed.

(** X24. When the update endpoint answers 200, the store differs only at
    the configuration key of the feed, where the JSON text of a record was
    written whose configuration is the one in the response; that
    configuration carries the feed's id from the route, a title, a
    description and a site URL that are not empty, and a positive number as
    maxItems. *)
Theorem handleUpdateConfig_stores_valid_config now feedId text st :
  status (fst (handleUpdateConfig now feedId text st)) = 200 →
  ∃ updatedConfig m,
    snd (handleUpdateConfig now feedId text st)
    = RedisMock.set st (configKey feedId)
        (JSON_stringify (upsertRecord now feedId updatedConfig st))
    ∧ getprop_opt (upsertRecord now feedId updatedConfig st) "feedConfig"
      = updatedConfig
    ∧ getprop_opt (body (fst (handleUpdateConfig now feedId text st))) "config"
      = updatedConfig
    ∧ getprop_opt updatedConfig "id" = VStr feedId
    ∧ truthy (getprop_opt updatedConfig "title") = true
    ∧ truthy (getprop_opt updatedConfig "description") = true
    ∧ truthy (getprop_opt updatedConfig "siteUrl") = true
    ∧ maxItems updatedConfig = Some m ∧ 0 < m.
Proof.
  unfold handleUpdateConfig.
  destruct (String.eqb feedId "") eqn:Hne; [done|].
  apply String.eqb_neq in Hne.
  destruct (JSON_parse text) as [inputConfig|]; [|done].
  set (current := if feedExists st feedId then _ else _).
  destruct current as [currentConfig|e] eqn:Hcur; [|by destruct e].
  destruct (upsertConfig now feedId currentConfig inputConfig)
    as [updatedConfig|] eqn:Hup; [|done].
  destruct (upsertConfig_shape _ _ _ _ _ Hup) as (fs & -> & Hid).
  destruct (negb (truthy (getprop_opt (VObj fs) "title"))) eqn:Ht; [done|].
  destruct (negb (truthy (getprop_opt (VObj fs) "description"))) eqn:Hd; [done|].
  destruct (negb (truthy (getprop_opt (VObj fs) "siteUrl"))) eqn:Hs; [done|].
  cbn [orb].
  apply negb_false_iff in Ht, Hd, Hs.
  destruct (ensureMaxItems_shape fs) as (fs' & m & -> & Hmax & Hpos & Hsame).
  assert (assoc "id" fs' = Some (VStr feedId)) as Hid'
    by (by rewrite Hsame).
  assert (truthy (VStr feedId) = true) as Htruthy.
  { simpl. apply negb_true_iff. by apply String.eqb_neq. }
  unfold upsertRecord.
  destruct (feedExists st feedId) eqn:Hex.
  - unfold updateFeedConfig. rewrite Hex. cbn [negb fst snd].
    intros _. exists (VObj fs'), m.
    split; [done|]. split.
    { unfold updatedData, getprop_opt. cbn [getprop spread].
      rewrite assoc_set_prop_ne by done. rewrite assoc_set_prop_eq.
      cbn [default from_option id]. by rewrite set_prop_same. }
    split; [done|].
    unfold getprop_opt in *. cbn [getprop] in *.
    rewrite Hid', !Hsame by done.
    repeat (split; [done|]). split; [|done].
    unfold maxItems, getprop_opt. cbn [getprop]. by rewrite Hmax.
  - unfold createFeed. cbn [getprop]. rewrite Hid'.
    cbn [default from_option id]. rewrite Htruthy. cbn [negb fst snd].
    intros _. exists (VObj fs'), m.
    split; [done|]. split; [done|]. split; [done|].
    unfold getprop_opt in *. cbn [getprop] in *.
    rewrite Hid', !Hsame by done.
    repeat (split; [done|]). split; [|done].
    unfold maxItems, getprop_opt. cbn [getprop]. by rewrite Hmax.
Qed.

End ConfigEndpoints.

Lemma handleCreateFeed_stores_positive_bound_witness :
  ∃ inputConfig,
    @JSON_parse Tiny.runtime Cases.newFeedBody = Some inputConfig
    ∧ @maxItems Tiny.runtime (@newFeedConfig Tiny.runtime 0 inputConfig)
      = Some 100.
Proof.
  destruct (@handleCreateFeed_stores_positive_bound Tiny.runtime 0
              Cases.newFeedBody Scenario.store0
              (match fst (@handleCreateFeed Tiny.runtime 0 Cases.newFeedBody
                            Scenario.store0) with
               | Ok response => response
               | Throw _ => respond [] 0
               end)
              (snd (@handleCreateFeed Tiny.runtime 0 Cases.newFeedBody
                      Scenario.store0)))
    as (inputConfig & feedId & m & Hparse & _ & _ & _ & _ & Hmax & _ & _).
  - vm_compute. reflexivity.
  - vm_compute. reflexivity.
  - exists inputConfig. split; [exact Hparse|].
    vm_compute in Hparse. injection Hparse as <-.
    vm_compute. reflexivity.
Defined.

Lemma handleUpdateConfig_stores_valid_config_witness :
  ∃ updatedConfig,
    getprop_opt
      (body (fst (@handleUpdateConfig Tiny.runtime 7 "f1" Cases.patchBody
                    Scenario.store0))) "config" = updatedConfig
    ∧ getprop_opt updatedConfig "id" = VStr "f1".
Proof.
  destruct (@handleUpdateConfig_stores_valid_config Tiny.runtime 7 "f1"
              Cases.patchBody Scenario.store0)
    as (updatedConfig & m & _ & _ & Hbody & Hid & _).
  - vm_compute. reflexivity.
  - exists updatedConfig. split; [exact Hbody | exact Hid].
Defined.
